(** * Week10.py: cloud cost and tagging dashboard

    A shallow embedding of the data logic of [src/Week10.py]: the CSV
    ingestion with its quote-repair fallback, the tagging metrics, the
    completeness-score enrichment and the remediation recompute.

    Conventions of the embedding.
    - A pandas DataFrame is a list of column labels and a list of rows; a row
      is a finite map from column label to cell, and a label a row does not
      hold reads as NaN (what pandas' reindexing fills in).  Column labels are
      taken pairwise distinct.
    - A cell is NaN (null), a text or a number.  Numbers are exact rationals:
      the rounding of binary floating point and the wrap-around of 64-bit
      integer sums are idealised, so sums are exact; the outcome of a
      division by zero (Python raises, numpy gives nan or inf) is modelled.
    - Python exceptions are the [Raise] results of the [pyresult] monad.
    - Text is a string of characters with code points below 256, which an
      [ascii] holds; [open] and pandas decode the file the same way (UTF-8),
      and the file is read in one buffer (up to 256 KiB). *)

From Stdlib Require Import QArith Ascii.
From stdpp Require Import base option list strings gmap fin_maps sorting pretty.

Local Open Scope string_scope.
Local Open Scope nat_scope.
Local Open Scope list_scope.

(** ** Exceptions

    The exceptions of Python and pandas that the script can meet, and
    [Unsupported], which is none of them: it marks an input on which the
    embedding does not follow pandas (a sum over texts, a rescan of the
    tokenizer across a carriage return). *)

Inductive exn :=
  | KeyError (label : string)
  | ZeroDivisionError
  | TypeError
  | EmptyDataError
  | ParserError
  | Unsupported.

Inductive pyresult (A : Type) :=
  | Ok (a : A)
  | Raise (e : exn).
Arguments Ok {A} a.
Arguments Raise {A} e.

Global Instance pyresult_ret : MRet pyresult := @Ok.
Global Instance pyresult_bind : MBind pyresult := λ A B f m,
  match m with Ok a => f a | Raise e => Raise e end.

(** ** Cells, rows and frames *)

Inductive cell :=
  | NaN
  | Str (s : string)
  | Num (q : Q).

Global Instance Q_eq_dec : EqDecision Q.
Proof. solve_decision. Defined.

Global Instance cell_eq_dec : EqDecision cell.
Proof. solve_decision. Defined.

Global Instance Q_countable : Countable Q :=
  inj_countable' (λ q, (Qnum q, Qden q)) (λ p, Qmake p.1 p.2)
                 (λ q, match q with Qmake _ _ => eq_refl end).

Definition cell_to_sum (c : cell) : unit + (string + Q) :=
  match c with NaN => inl () | Str s => inr (inl s) | Num q => inr (inr q) end.
Definition cell_of_sum (x : unit + (string + Q)) : cell :=
  match x with inl _ => NaN | inr (inl s) => Str s | inr (inr q) => Num q end.

Global Instance cell_countable : Countable cell :=
  inj_countable' cell_to_sum cell_of_sum
                 (λ c, match c with NaN | Str _ | Num _ => eq_refl end).

(** [Series.notnull], cell by cell. *)
Definition notnull (c : cell) : bool :=
  match c with NaN => false | _ => true end.

Abbreviation Row := (gmap string cell).

Definition cell_at (r : Row) (c : string) : cell := default NaN (r !! c).

Record DataFrame := mkDF { columns : list string; rows : list Row }.

(** [len(df)] and [df.empty] (no rows, or no columns). *)
Definition len (df : DataFrame) : nat := length (rows df).
Definition empty (df : DataFrame) : bool :=
  bool_decide (rows df = []) || bool_decide (columns df = []).

(** [df[c]]: the column as a Series, [KeyError] when there is no such label. *)
Definition getitem (df : DataFrame) (c : string) : pyresult (list cell) :=
  if decide (c ∈ columns df)
  then Ok (map (λ r, cell_at r c) (rows df))
  else Raise (KeyError c).

(** [df[[c1, ..., cn]]], row by row; [KeyError] on a missing label. *)
Definition getitems (df : DataFrame) (cs : list string)
  : pyresult (list (list cell)) :=
  match filter (λ c, c ∉ columns df) cs with
  | [] => Ok (map (λ r, map (cell_at r) cs) (rows df))
  | c :: _ => Raise (KeyError c)
  end.

(** [s == v] for a text [v], and the boolean-mask selection [df[mask]]. *)
Definition eq_str (s : list cell) (v : string) : list bool :=
  map (λ c, bool_decide (c = Str v)) s.

Definition select (df : DataFrame) (mask : list bool) : DataFrame :=
  mkDF (columns df) (map fst (filter (λ rb, snd rb = true) (zip (rows df) mask))).

(** [df[df[c] == v]] *)
Definition where_eq (df : DataFrame) (c v : string) : pyresult DataFrame :=
  s ← getitem df c; Ok (select df (eq_str s v)).

(** [df[c] = vals]: overwrites the column when the label exists, appends a
    new last column otherwise. *)
Definition setitem (df : DataFrame) (c : string) (vals : list cell) : DataFrame :=
  mkDF (if decide (c ∈ columns df) then columns df else columns df ++ [c])
       (zip_with (λ r v, <[c := v]> r) (rows df) vals).

(** [pd.concat([a, b], ignore_index=True)]: the rows of [a], then those of
    [b]; the columns of [a], then the ones only [b] has. *)
Definition concat (a b : DataFrame) : DataFrame :=
  mkDF (columns a ++ filter (λ c, c ∉ columns a) (columns b)) (rows a ++ rows b).

(** ** Text (lines 17-31)

    The characters of a Python [str], and the string methods the repair
    routine calls. *)

Abbreviation text := (list ascii).

Definition LF : ascii := ascii_of_nat 10.
Definition CR : ascii := ascii_of_nat 13.
Definition TAB : ascii := ascii_of_nat 9.
Definition SPACE : ascii := ascii_of_nat 32.
Definition QUOTE : ascii := ascii_of_nat 34.
Definition COMMA : ascii := ascii_of_nat 44.

Definition text_of (s : string) : text := String.list_ascii_of_string s.
Definition string_of (s : text) : string := String.string_of_list_ascii s.

(** [str.isspace], the whitespace [str.strip] removes: tab to carriage
    return, the four separators FS to US, the space, and above ASCII the
    next-line control U+0085 and the no-break space U+00A0. *)
Definition is_space (c : ascii) : bool :=
  let n := nat_of_ascii c in
  ((9 <=? n) && (n <=? 13)) || ((28 <=? n) && (n <=? 32))
  || (n =? 133) || (n =? 160).

Fixpoint lstrip (s : text) : text :=
  match s with
  | c :: s' => if is_space c then lstrip s' else s
  | [] => []
  end.

Definition rstrip (s : text) : text := rev (lstrip (rev s)).

(** [line.strip()] *)
Definition strip (s : text) : text := rstrip (lstrip s).

(** [line.startswith(q)], [line.endswith(q)] for the double quote [q], and
    [line[1:-1]] *)
Definition startswith_quote (s : text) : bool :=
  match s with c :: _ => bool_decide (c = QUOTE) | [] => false end.

Definition endswith_quote (s : text) : bool :=
  match last s with Some c => bool_decide (c = QUOTE) | None => false end.

Definition slice_1_m1 (s : text) : text := removelast (tail s).

(** [open(path, 'r')]: text mode reads with universal newlines, a carriage
    return, alone or in front of a line feed, comes out as a line feed. *)
Fixpoint universal_newlines (s : text) : text :=
  match s with
  | [] => []
  | c :: s' =>
      if bool_decide (c = CR) then
        LF :: match s' with
              | d :: s'' =>
                  if bool_decide (d = LF) then universal_newlines s''
                  else universal_newlines s'
              | [] => []
              end
      else c :: universal_newlines s'
  end.

(** [f.readlines()]: the lines of the file, each with its line feed. *)
Fixpoint readlines_from (line : text) (s : text) : list text :=
  match s with
  | [] => match line with [] => [] | _ => [line] end
  | c :: s' =>
      if bool_decide (c = LF) then (line ++ [LF]) :: readlines_from [] s'
      else readlines_from (line ++ [c]) s'
  end.

(** lines 17-18 *)
Definition readlines (file : text) : list text :=
  readlines_from [] (universal_newlines file).

(** ['\n'.join(lines)] *)
Fixpoint join (sep : text) (ls : list text) : text :=
  match ls with
  | [] => []
  | [l] => l
  | l :: ls' => l ++ sep ++ join sep ls'
  end.

(** lines 22-27, one line of the loop *)
Definition process_line (line : text) : text :=
  let line := strip line in
  if startswith_quote line && endswith_quote line then slice_1_m1 line else line.

(** ** read_csv

    pandas' reader, as far as the two calls of the script use it: the
    tokenizer of the C parser for [sep=','] and the double quote as
    quotechar, doubled inside a quoted field, with and without
    [skipinitialspace], blank lines skipped, a line ended by a line feed, by
    a carriage return or by both; then the frame: the first row names the
    columns, short rows are filled with nulls, the default null markers are
    recognised, and a column whose non-null fields are all numbers becomes
    numeric.  The reader gets the characters of the file as they are, without
    the newline translation of text mode. *)

Inductive tstate :=
  | START_RECORD
  | START_FIELD
  | IN_FIELD
  | IN_QUOTED_FIELD
  | QUOTE_IN_QUOTED_FIELD
  | WHITESPACE_LINE
  | EAT_CRNL
  | EAT_CRNL_NOP
  | RESCANNING.

(** The tokenizer: its state, the field and the line being read, the lines
    read so far, and the characters read since the last line feed. *)
Record tokenizer := mkTok {
  state : tstate;
  field : text;
  line : list text;
  lines : list (list text);
  seen : text
}.

Definition goto (s : tstate) (t : tokenizer) : tokenizer :=
  mkTok s (field t) (line t) (lines t) (seen t).

Definition push_char (c : ascii) (t : tokenizer) : tokenizer :=
  mkTok (state t) (field t ++ [c]) (line t) (lines t) (seen t).

Definition end_field (t : tokenizer) : tokenizer :=
  mkTok (state t) [] (line t ++ [field t]) (lines t) (seen t).

Definition end_line (t : tokenizer) : tokenizer :=
  mkTok START_RECORD [] [] (lines t ++ [line t]) (seen t).

(** The buffer position: a line feed starts a new stretch. *)
Definition note (c : ascii) (t : tokenizer) : tokenizer :=
  mkTok (state t) (field t) (line t) (lines t)
        (if bool_decide (c = LF) then [] else seen t ++ [c]).

Definition is_blank (c : ascii) : bool :=
  bool_decide (c = SPACE) || bool_decide (c = TAB).

(** One character, inside a record. *)
Definition step_field (skipinitialspace : bool) (t : tokenizer) (c : ascii)
  : tokenizer :=
  match state t with
  | START_FIELD =>
      if bool_decide (c = LF) then end_line (end_field t)
      else if bool_decide (c = CR) then goto EAT_CRNL (end_field t)
      else if bool_decide (c = QUOTE) then goto IN_QUOTED_FIELD t
      else if skipinitialspace && bool_decide (c = SPACE) then goto START_FIELD t
      else if bool_decide (c = COMMA) then goto START_FIELD (end_field t)
      else goto IN_FIELD (push_char c t)
  | IN_FIELD =>
      if bool_decide (c = LF) then end_line (end_field t)
      else if bool_decide (c = CR) then goto EAT_CRNL (end_field t)
      else if bool_decide (c = COMMA) then goto START_FIELD (end_field t)
      else push_char c t
  | IN_QUOTED_FIELD =>
      if bool_decide (c = QUOTE) then goto QUOTE_IN_QUOTED_FIELD t
      else push_char c t
  | QUOTE_IN_QUOTED_FIELD =>
      if bool_decide (c = QUOTE) then goto IN_QUOTED_FIELD (push_char c t)
      else if bool_decide (c = COMMA) then goto START_FIELD (end_field t)
      else if bool_decide (c = LF) then end_line (end_field t)
      else if bool_decide (c = CR) then goto EAT_CRNL (end_field t)
      else goto IN_FIELD (push_char c t)
  | _ => t
  end.

(** One character at the start of a record: an empty line is skipped, a
    blank opens a line that may hold blanks only. *)
Definition start_record (skipinitialspace : bool) (t : tokenizer) (c : ascii)
  : tokenizer :=
  if bool_decide (c = LF) then goto START_RECORD t
  else if bool_decide (c = CR) then goto EAT_CRNL_NOP t
  else if is_blank c then goto WHITESPACE_LINE t
  else step_field skipinitialspace (goto START_FIELD t) c.

(** A line of blanks ends with a character that shows the blanks begin a
    field: the C code then goes back in its buffer to the last line feed and
    reads on from there inside a record. *)
Definition backtracks (t : tokenizer) (c : ascii) : bool :=
  match state t with
  | WHITESPACE_LINE =>
      negb (bool_decide (c = LF) || bool_decide (c = CR) || is_blank c)
  | _ => false
  end.

(** One character where nothing is read again.  After a carriage return a
    line feed belongs to the same line end, any other character opens the
    next record; after the carriage return of a skipped line a comma is
    dropped as well. *)
Definition step_once (skipinitialspace : bool) (t : tokenizer) (c : ascii)
  : tokenizer :=
  note c
    match state t with
    | START_RECORD => start_record skipinitialspace t c
    | WHITESPACE_LINE =>
        if bool_decide (c = LF) then goto START_RECORD t
        else if bool_decide (c = CR) then goto EAT_CRNL_NOP t
        else if is_blank c then t
        else goto RESCANNING t
    | EAT_CRNL =>
        if bool_decide (c = LF) then end_line t
        else start_record skipinitialspace (end_line t) c
    | EAT_CRNL_NOP =>
        if bool_decide (c = LF) || bool_decide (c = COMMA)
        then goto START_RECORD t
        else start_record skipinitialspace (goto START_RECORD t) c
    | RESCANNING => t
    | _ => step_field skipinitialspace t c
    end.

(** One character.  Going back, the tokenizer reads again what it has seen
    since the last line feed.  These are the blanks of the line when the
    line began there.  When a carriage return came in between, the C code
    reads again across it, from a place that depends on how pandas cut the
    input into calls of the tokenizer: this is not followed
    ([RESCANNING]). *)
Definition step (skipinitialspace : bool) (t : tokenizer) (c : ascii)
  : tokenizer :=
  if backtracks t c then
    if bool_decide (CR ∈ seen t) then goto RESCANNING t
    else foldl (step_once skipinitialspace)
               (mkTok START_FIELD (field t) (line t) (lines t) [])
               (seen t ++ [c])
  else step_once skipinitialspace t c.

(** End of input: an open field and line are closed; a quote left open is an
    error. *)
Definition at_eof (t : tokenizer) : pyresult (list (list text)) :=
  match state t with
  | START_RECORD | WHITESPACE_LINE | EAT_CRNL_NOP => Ok (lines t)
  | IN_QUOTED_FIELD => Raise ParserError
  | RESCANNING => Raise Unsupported
  | EAT_CRNL => Ok (lines (end_line t))
  | _ => Ok (lines (end_line (end_field t)))
  end.

Definition tokenizer_init : tokenizer := mkTok START_RECORD [] [] [] [].

Definition tokenize (skipinitialspace : bool) (s : text)
  : pyresult (list (list text)) :=
  at_eof (foldl (step skipinitialspace) tokenizer_init s).

(** The fields pandas reads as null by default. *)
Definition na_values : list string :=
  [""; "#N/A"; "#N/A N/A"; "#NA"; "-1.#IND"; "-1.#QNAN"; "-NaN"; "-nan";
   "1.#IND"; "1.#QNAN"; "<NA>"; "N/A"; "NA"; "NULL"; "NaN"; "None"; "n/a";
   "nan"; "null"].

Definition is_na (f : text) : bool := bool_decide (string_of f ∈ na_values).

(** Numbers as the C parser reads them: ASCII blanks around, a sign,
    digits with an optional fraction, an optional exponent with at least
    one digit.  The value is exact; the range of a float is kept, so a
    number too large for one is not read as a number.  (The spellings of
    infinity, and columns of True and False, which pandas reads as floats
    and booleans, stay text here: a cell has no such value.) *)
Definition isspace_ascii (c : ascii) : bool :=
  let n := nat_of_ascii c in
  (n =? 32) || ((9 <=? n) && (n <=? 13)).

Fixpoint skip_spaces (s : text) : text :=
  match s with
  | c :: s' => if isspace_ascii c then skip_spaces s' else s
  | [] => []
  end.

Definition digit (c : ascii) : option Z :=
  let n := nat_of_ascii c in
  if (48 <=? n) && (n <=? 57) then Some (Z.of_nat (n - 48)) else None.

Fixpoint digits (acc : Z) (n : nat) (s : text) : Z * nat * text :=
  match s with
  | c :: s' =>
      match digit c with
      | Some d => digits (10 * acc + d)%Z (S n) s'
      | None => (acc, n, s)
      end
  | [] => (acc, n, [])
  end.

(** An optional sign: whether it is a minus, and the rest. *)
Definition sign (s : text) : bool * text :=
  match s with
  | c :: s' =>
      if bool_decide (c = ascii_of_nat 45) then (true, s')
      else if bool_decide (c = ascii_of_nat 43) then (false, s')
      else (false, s)
  | [] => (false, [])
  end.

(** The fraction after the digits of the whole part. *)
Definition fraction (whole : Z) (s : text) : Z * nat * text :=
  match s with
  | c :: s' =>
      if bool_decide (c = ascii_of_nat 46) then digits whole 0 s'
      else (whole, 0, s)
  | [] => (whole, 0, [])
  end.

(** The exponent: an e or E, a sign, digits; without a digit after it the
    letter is not part of the number. *)
Definition exponent (s : text) : Z * text :=
  match s with
  | c :: s' =>
      if bool_decide (c = ascii_of_nat 101) || bool_decide (c = ascii_of_nat 69)
      then
        let '(negative, s1) := sign s' in
        let '(n, n_digits, s2) := digits 0 0 s1 in
        if n_digits =? 0 then (0%Z, s)
        else ((if negative then - n else n)%Z, s2)
      else (0%Z, s)
  | [] => (0%Z, [])
  end.

Definition power10 (e : Z) : Q :=
  if (0 <=? e)%Z then inject_Z (10 ^ e) else Qinv (inject_Z (10 ^ (- e))).

(** The largest float, [(2^53 - 1) * 2^971]. *)
Definition DBL_MAX : Q := inject_Z ((2 ^ 53 - 1) * 2 ^ 971).

Definition parse_number (f : text) : option Q :=
  let '(negative, s1) := sign (skip_spaces f) in
  let '(whole, n_whole, s2) := digits 0 0 s1 in
  let '(mantissa, n_frac, s3) := fraction whole s2 in
  if n_whole + n_frac =? 0 then None
  else
    let '(e, s4) := exponent s3 in
    let e := (e - Z.of_nat n_frac)%Z in
    match skip_spaces s4 with
    | [] =>
        if (308 <? e)%Z then None
        else
          let q := Qred (Qmult (inject_Z mantissa) (power10 e)) in
          if Qle_bool q DBL_MAX then Some (if negative then Qopp q else q)
          else None
    | _ => None
    end.

Definition numeric_field (f : text) : bool :=
  is_na f || bool_decide (is_Some (parse_number f)).

Definition convert (numeric_column : bool) (f : text) : cell :=
  if is_na f then NaN
  else if numeric_column then
    match parse_number f with Some q => Num q | None => Str (string_of f) end
  else Str (string_of f).

(** The column names of a header.  An empty name becomes [Unnamed: i]; a
    name taken before gets the first suffix [.1], [.2], ... that is still
    free, the names of the file before the ones made up for empty fields. *)
Definition unnamed (i : nat) : string := "Unnamed: " +:+ pretty i.

Fixpoint mangle (fuel : nat) (this_header : list string) (old_col : string)
    (counts : gmap string nat) (col : string) (cur_count : nat)
  : string * nat * gmap string nat :=
  match fuel with
  | S fuel' =>
      if cur_count =? 0 then (col, cur_count, counts)
      else
        let counts := <[old_col := S cur_count]> counts in
        let col := old_col +:+ "." +:+ pretty cur_count in
        let cur_count := if decide (col ∈ this_header) then S cur_count
                         else default 0 (counts !! col) in
        mangle fuel' this_header old_col counts col cur_count
  | 0 => (col, cur_count, counts)
  end.

Definition dedup_name (st : list string * gmap string nat) (i : nat)
  : list string * gmap string nat :=
  match st.1 !! i with
  | Some old_col =>
      let '(col, cur_count, counts) :=
        mangle (length st.1 + 2) st.1 old_col st.2 old_col
               (default 0 (st.2 !! old_col)) in
      (<[i := col]> st.1, <[col := S cur_count]> counts)
  | None => st
  end.

Definition header_names (header : list text) : list string :=
  let given := map string_of header in
  let positions := seq 0 (length given) in
  let unnamed_cols := filter (λ i, given !! i = Some "") positions in
  let named_cols := filter (λ i, given !! i ≠ Some "") positions in
  let this_header :=
    imap (λ i name, if decide (name = "") then unnamed i else name) given in
  (foldl dedup_name (this_header, ∅) (named_cols ++ unnamed_cols)).1.

(** The frame of a tokenized file.  The table is as wide as the wider of the
    header and the first data row; a later row that is wider is an error,
    fields in front of the named ones are the index, which is not part of
    the columns. *)
Definition build_frame (tokens : list (list text)) : pyresult DataFrame :=
  match tokens with
  | [] => Raise EmptyDataError
  | header :: body =>
      let names := header_names header in
      let width := match body with
                   | [] => length header
                   | r :: _ => max (length header) (length r)
                   end in
      if forallb (λ r, length r <=? width) body then
        let table := map (λ r, drop (width - length header)
                                 (r ++ replicate (width - length r) []))
                         body in
        let numeric_column j :=
          forallb (λ r, numeric_field (nth j r [])) table in
        Ok (mkDF names
              (map (λ r, list_to_map
                           (zip names (imap (λ j f, convert (numeric_column j) f) r)))
                   table))
      else Raise ParserError
  end.

Definition read_csv (skipinitialspace : bool) (s : text) : pyresult DataFrame :=
  tokens ← tokenize skipinitialspace s; build_frame tokens.

(** ** Ingestion (lines 8-41) *)

(** lines 10-34, on a file that exists *)
Definition ingest (file : text) : pyresult DataFrame :=
  df ← read_csv true file;
  if bool_decide (length (columns df) = 1) then
    let lines := readlines file in
    let processed_lines := map process_line lines in
    let csv_string := join [LF] processed_lines in
    read_csv false csv_string
  else Ok df.

(** line 41: the header names stripped, and their double quotes removed *)
Definition normalize_name (c : string) : string :=
  string_of (filter (λ ch, ch ≠ QUOTE) (strip (text_of c))).

Definition normalize_columns (df : DataFrame) : DataFrame :=
  mkDF (map normalize_name (columns df))
       (map (λ r : Row,
               list_to_map (map (λ c, (normalize_name c, cell_at r c)) (columns df)))
            (rows df)).

Definition load (file : text) : pyresult DataFrame :=
  df ← ingest file; Ok (normalize_columns df).

(** ** Series operations *)

(** [Series.value_counts()]: occurrences of each value, nulls left out
    (pandas' [dropna=True] default). *)
Definition count_cell (c : cell) (m : gmap cell nat) : gmap cell nat :=
  if notnull c then <[c := S (default 0 (m !! c))]> m else m.

Definition value_counts (s : list cell) : gmap cell nat := foldr count_cell ∅ s.

(** [sum(counts.values())] *)
Definition counts_total (m : gmap cell nat) : nat :=
  map_fold (λ _ n acc, n + acc) 0 m.

(** The values of a numeric column: numbers and nulls.  On a text the
    operation that asked for numbers ends with [e]. *)
Definition as_float (e : exn) (c : cell) : pyresult (option Q) :=
  match c with
  | NaN => Ok None
  | Num q => Ok (Some q)
  | Str _ => Raise e
  end.

Fixpoint values (e : exn) (s : list cell) : pyresult (list (option Q)) :=
  match s with
  | [] => Ok []
  | c :: s' => x ← as_float e c; xs ← values e s'; Ok (x :: xs)
  end.

(** The summands of a sum.  pandas adds numbers; the texts of a column of
    texts it joins, so that the script raises [TypeError] only where it
    divides by the result (lines 70, 170): sums over texts are not
    followed. *)
Definition numeric (s : list cell) : pyresult (list (option Q)) :=
  values Unsupported s.

(** Sums skip nulls ([skipna=True]); the sum of nothing is 0. *)
Definition add_skipna (acc : Q) (x : option Q) : Q :=
  match x with Some q => Qplus acc q | None => acc end.

Definition nansum (xs : list (option Q)) : Q := foldl add_skipna 0%Q xs.

(** [df.groupby(k)[v].sum()]: one entry per non-null key, the sum of the
    values of its rows in row order. *)
Definition group_add (m : gmap cell Q) (kv : cell * option Q) : gmap cell Q :=
  if notnull kv.1 then <[kv.1 := add_skipna (default 0%Q (m !! kv.1)) kv.2]> m else m.

Definition groupby_sum (df : DataFrame) (k v : string) : pyresult (gmap cell Q) :=
  ks ← getitem df k;
  vs ← getitem df v;
  xs ← numeric vs;
  Ok (foldl group_add ∅ (zip ks xs)).

(** ** Numbers and division *)

(** A Python number, or a numpy scalar (what a pandas reduction or a lookup
    in a numeric Series returns). *)
Inductive scalar :=
  | Py (q : Q)
  | Np (q : Q).

Definition scalar_val (a : scalar) : Q :=
  match a with Py q | Np q => q end.

(** The float a true division yields: finite, nan, or an infinity. *)
Inductive quotient :=
  | Fin (q : Q)
  | nan
  | inf (positive : bool).

(** [a / b].  Between Python numbers a zero divisor raises; as soon as one
    operand is a numpy scalar the division is numpy's, which warns and
    returns nan (0/0) or a signed infinity. *)
Definition truediv (a b : scalar) : pyresult quotient :=
  match a, b with
  | Py x, Py y =>
      if Qeq_bool y 0 then Raise ZeroDivisionError else Ok (Fin (Qdiv x y))
  | _, _ =>
      let x := scalar_val a in
      let y := scalar_val b in
      Ok (if Qeq_bool y 0
          then (if Qeq_bool x 0 then nan else inf (Qle_bool 0 x))
          else Fin (Qdiv x y))
  end.

(** [r * 100] *)
Definition times100 (r : quotient) : quotient :=
  match r with Fin q => Fin (Qmult q 100) | other => other end.

(** [Series.sum()].  read_csv leaves the columns of a file without data rows
    at dtype object, whose empty sum is the Python int 0; a numeric column
    sums to a numpy scalar, and keeps its dtype when rows are filtered out or
    frames concatenated ([numeric_dtype]). *)
Definition series_sum (numeric_dtype : bool) (s : list cell) : pyresult scalar :=
  xs ← numeric s;
  Ok (match xs with
      | [] => if numeric_dtype then Np 0 else Py 0
      | _ => Np (nansum xs)
      end).

(** [series.get(key, 0)] on a Series of numpy values. *)
Definition get_or_0 {A} (inj : A → Q) (m : gmap cell A) (key : cell) : scalar :=
  match m !! key with Some x => Np (inj x) | None => Py 0 end.

Definition Q_of_nat (n : nat) : Q := inject_Z (Z.of_nat n).

(** ** Metrics (lines 57-84) *)

(** line 59 *)
Definition tagged_counts (df : DataFrame) : pyresult (gmap cell nat) :=
  s ← getitem df "Tagged"; Ok (value_counts s).

(** line 63 *)
Definition percent_untagged (df : DataFrame) : pyresult quotient :=
  counts ← tagged_counts df;
  r ← truediv (get_or_0 Q_of_nat counts (Str "No")) (Py (Q_of_nat (len df)));
  Ok (times100 r).

(** lines 67-68 *)
Definition cost_by_tag (df : DataFrame) : pyresult (gmap cell Q) :=
  groupby_sum df "Tagged" "MonthlyCostUSD".

Definition total_cost (numeric_dtype : bool) (df : DataFrame) : pyresult scalar :=
  s ← getitem df "MonthlyCostUSD"; series_sum numeric_dtype s.

(** lines 67-70, and 165-170 on the remediated frame *)
Definition percent_cost (numeric_dtype : bool) (df : DataFrame) : pyresult quotient :=
  by_tag ← cost_by_tag df;
  total ← total_cost numeric_dtype df;
  let untagged_cost := get_or_0 id by_tag (Str "No") in
  r ← truediv untagged_cost total;
  Ok (times100 r).

Definition percent_untagged_cost (df : DataFrame) : pyresult quotient :=
  percent_cost false df.

(** [Series.idxmax()] of a non-empty Series of group sums: the key of the
    largest sum, the first one in the (sorted) index on a tie. *)
Definition cell_ltb (a b : cell) : bool :=
  match a, b with
  | Str s, Str t => String.ltb s t
  | Num p, Num q => negb (Qle_bool q p)
  | Num _, Str _ => true
  | _, _ => false
  end.

Definition better (kv best : cell * Q) : bool :=
  negb (Qle_bool kv.2 best.2) || (Qeq_bool kv.2 best.2 && cell_ltb kv.1 best.1).

Definition idxmax (s : gmap cell Q) : cell :=
  match map_to_list s with
  | [] => NaN
  | kv :: l => (foldl (λ best kv, if better kv best then kv else best) kv l).1
  end.

(** [s.idxmax() if not s.empty else "N/A"] *)
Definition idxmax_or_na (s : gmap cell Q) : cell :=
  if bool_decide (s = ∅) then Str "N/A" else idxmax s.

(** lines 77-78 *)
Definition untagged_dept_cost (df : DataFrame) : pyresult (gmap cell Q) :=
  untagged ← where_eq df "Tagged" "No";
  groupby_sum untagged "Department" "MonthlyCostUSD".

Definition dept_most_untagged_cost (df : DataFrame) : pyresult cell :=
  s ← untagged_dept_cost df; Ok (idxmax_or_na s).

(** lines 82-83 *)
Definition project_cost (df : DataFrame) : pyresult (gmap cell Q) :=
  groupby_sum df "Project" "MonthlyCostUSD".

Definition project_most_cost (df : DataFrame) : pyresult cell :=
  s ← project_cost df; Ok (idxmax_or_na s).

(** ** Tag completeness (lines 91-106) *)

Definition tag_fields : list string :=
  ["Department"; "Project"; "Owner"; "CostCenter"].

(** [notnull().sum(axis=1)] on the cells of one row *)
Definition count_notnull (cells : list cell) : nat :=
  length (filter (λ c, notnull c = true) cells).

Definition score_cell (cells : list cell) : cell :=
  Num (Q_of_nat (count_notnull cells)).

(** line 93: the Series assigned to the new column *)
Definition TagCompletenessScore (df : DataFrame) : pyresult (list cell) :=
  cells ← getitems df tag_fields; Ok (map score_cell cells).

(** line 93: the frame after the assignment *)
Definition enrich (df : DataFrame) : pyresult DataFrame :=
  scores ← TagCompletenessScore df;
  Ok (setitem df "TagCompletenessScore" scores).

(** line 99: nulls per tag field *)
Definition missing_by_tag (df : DataFrame) : pyresult (list (string * nat)) :=
  cells ← getitems df tag_fields;
  Ok (map (λ f, (f, length (filter (λ r, notnull (cell_at r f) = false) (rows df))))
          tag_fields).

(** line 104: identifier and cost of the untagged rows *)
Definition untagged_resources (df : DataFrame) : pyresult (list (cell * cell)) :=
  untagged ← where_eq df "Tagged" "No";
  ids ← getitem untagged "ResourceID";
  costs ← getitem untagged "MonthlyCostUSD";
  Ok (zip ids costs).

(** ** Remediation (lines 148-173) *)

(** [notnull().all(axis=1).map({True: 'Yes', False: 'No'})] on one row *)
Definition flag_cell (cells : list cell) : cell :=
  if forallb notnull cells then Str "Yes" else Str "No".

(** line 161: the edited frame with its Tagged column recomputed *)
Definition recompute_flags (edited_df : DataFrame) : pyresult DataFrame :=
  cells ← getitems edited_df tag_fields;
  Ok (setitem edited_df "Tagged" (map flag_cell cells)).

(** line 161 on one record *)
Definition reflag (r : Row) : Row :=
  <["Tagged" := flag_cell (map (cell_at r) tag_fields)]> r.

(** lines 156-157: the frame behind the download button, merged before the
    flags are recomputed *)
Definition combined_df (df edited_df : DataFrame) : pyresult DataFrame :=
  tagged_df ← where_eq df "Tagged" "Yes";
  Ok (concat tagged_df edited_df).

(** lines 161-162 *)
Definition updated_df (df edited_df : DataFrame) : pyresult DataFrame :=
  edited ← recompute_flags edited_df;
  tagged_df ← where_eq df "Tagged" "Yes";
  Ok (concat tagged_df edited).

(** lines 165-170 *)
Definition updated_cost_by_tag (df edited_df : DataFrame) : pyresult (gmap cell Q) :=
  u ← updated_df df edited_df; cost_by_tag u.

Definition updated_percent_untagged_cost (df edited_df : DataFrame)
  : pyresult quotient :=
  u ← updated_df df edited_df; percent_cost true u.

(** What the remediation section leaves behind: nothing when there is no
    untagged row (the [else] branch), otherwise the merged frame with its
    cost summary.  [editor] is the user's pass over the untagged rows in
    [st.data_editor]. *)
Record Remediated := mkRemediated {
  rem_updated : DataFrame;
  rem_cost_by_tag : gmap cell Q;
  rem_percent : quotient
}.

Definition remediation (editor : DataFrame → DataFrame) (df : DataFrame)
  : pyresult (option Remediated) :=
  untagged_df ← where_eq df "Tagged" "No";
  if empty untagged_df then Ok None
  else
    let edited_df := editor untagged_df in
    u ← updated_df df edited_df;
    by_tag ← cost_by_tag u;
    pct ← percent_cost true u;
    Ok (Some (mkRemediated u by_tag pct)).

(** The recompute with the editor left untouched: the table the section
    leaves, which is the input itself when nothing is untagged. *)
Definition recompute (df : DataFrame) : pyresult DataFrame :=
  untagged_df ← where_eq df "Tagged" "No";
  if empty untagged_df then Ok df else updated_df df untagged_df.

(** ** Cost by environment and tag (line 87)

    [df.groupby([k1, k2])[v].sum()]: one entry per pair of non-null keys
    that occurs, the sum of the values of its rows in row order.  A key
    that is no column is a [KeyError], unless the frame has as many rows as
    there are keys: pandas then takes the list of keys for the group labels
    of the rows. *)

Inductive grouped2 :=
  | by_keys (sums : gmap (cell * cell) Q)
  | by_labels (sums : gmap cell Q).

Definition group_add2 (m : gmap (cell * cell) Q) (kv : (cell * cell) * option Q)
  : gmap (cell * cell) Q :=
  if notnull kv.1.1 && notnull kv.1.2
  then <[kv.1 := add_skipna (default 0%Q (m !! kv.1)) kv.2]> m
  else m.

Definition groupby2_sum (df : DataFrame) (k1 k2 v : string)
  : pyresult grouped2 :=
  if decide (k1 ∈ columns df ∧ k2 ∈ columns df) then
    ks1 ← getitem df k1;
    ks2 ← getitem df k2;
    vs ← getitem df v;
    xs ← numeric vs;
    Ok (by_keys (foldl group_add2 ∅ (zip (zip ks1 ks2) xs)))
  else if len df =? 2 then
    vs ← getitem df v;
    xs ← numeric vs;
    Ok (by_labels (foldl group_add ∅ (zip [Str k1; Str k2] xs)))
  else Raise (KeyError (if decide (k1 ∈ columns df) then k2 else k1)).

Definition env_tag_summary (df : DataFrame) : pyresult grouped2 :=
  groupby2_sum df "Environment" "Tagged" "MonthlyCostUSD".

(** ** The metrics in script order (lines 57-93)

    The statements run top to bottom, so the first one that raises ends the
    run. *)

Record Metrics := mkMetrics {
  m_tagged_counts : gmap cell nat;
  m_percent_untagged : quotient;
  m_cost_by_tag : gmap cell Q;
  m_percent_untagged_cost : quotient;
  m_dept_most_untagged_cost : cell;
  m_project_most_cost : cell;
  m_env_tag_summary : grouped2;
  m_enriched : DataFrame
}.

Definition metrics (df : DataFrame) : pyresult Metrics :=
  counts ← tagged_counts df;
  pct ← percent_untagged df;
  by_tag ← cost_by_tag df;
  pct_cost ← percent_untagged_cost df;
  dept ← dept_most_untagged_cost df;
  project ← project_most_cost df;
  by_env_tag ← env_tag_summary df;
  enriched ← enrich df;
  Ok (mkMetrics counts pct by_tag pct_cost dept project by_env_tag enriched).

(** ** Sorting

    Python's [sorted] and pandas' stable sorts: an insertion sort that keeps
    equal elements in their order of appearance. *)

Fixpoint insert_sorted {A} (leb : A → A → bool) (x : A) (l : list A) : list A :=
  match l with
  | [] => [x]
  | y :: l' => if leb x y then x :: l else y :: insert_sorted leb x l'
  end.

Definition stable_sort {A} (leb : A → A → bool) (l : list A) : list A :=
  foldr (insert_sorted leb) [] l.

(** ** Lowest completeness (line 96)

    [df.nsmallest(n, col)] on a numeric column: the [n] rows with the
    smallest values, in ascending order, the first ones on a tie.  Rows with
    a null in the column are left out (the score column holds none); a text
    in the column is a [TypeError]. *)

Definition sort_key (col : string) (r : Row) : Q :=
  match cell_at r col with Num q => q | _ => 0%Q end.

Definition nsmallest (n : nat) (col : string) (df : DataFrame) : pyresult DataFrame :=
  s ← getitem df col;
  _ ← values TypeError s;
  let present := filter (λ r, notnull (cell_at r col) = true) (rows df) in
  Ok (mkDF (columns df)
        (take n (stable_sort (λ r1 r2, Qle_bool (sort_key col r1) (sort_key col r2))
                   present))).

(** lines 93-96 *)
Definition lowest_completeness (df : DataFrame) : pyresult DataFrame :=
  enriched ← enrich df; nsmallest 5 "TagCompletenessScore" enriched.

(** ** Filters (lines 131-146) *)

(** [Series.dropna()] and [Series.unique()], the values in the order of their
    first appearance. *)
Definition dropna (s : list cell) : list cell :=
  filter (λ c, notnull c = true) s.

Fixpoint unique (s : list cell) : list cell :=
  match s with
  | [] => []
  | c :: s' => c :: filter (λ x, x ≠ c) (unique s')
  end.

(** [sorted] on the values of a column: texts by code point, numbers by
    value; texts and numbers together cannot be ordered. *)
Definition is_text (c : cell) : bool :=
  match c with Str _ => true | _ => false end.

Definition is_number (c : cell) : bool :=
  match c with Num _ => true | _ => false end.

Definition cell_leb (a b : cell) : bool :=
  match a, b with
  | Str s, Str t => String.leb s t
  | Num p, Num q => Qle_bool p q
  | _, _ => true
  end.

Definition sorted (s : list cell) : pyresult (list cell) :=
  if forallb is_text s || forallb is_number s
  then Ok (stable_sort cell_leb s)
  else Raise TypeError.

(** lines 133-135: the values offered for a column *)
Definition options (col : string) (df : DataFrame) : pyresult (list cell) :=
  s ← getitem df col; sorted (unique (dropna s)).

(** [a == b] on two values, and [Series.isin(values)], cell by cell. *)
Definition cell_eqb (a b : cell) : bool :=
  match a, b with
  | Str s, Str t => bool_decide (s = t)
  | Num p, Num q => Qeq_bool p q
  | _, _ => false
  end.

Definition cell_isin (values : list cell) (c : cell) : bool :=
  existsb (λ v, cell_eqb c v || (negb (notnull c) && negb (notnull v))) values.

(** lines 137-143.  [selected_service] is one of the options or the text
    "All"; the two multiselects return lists of options. *)
Definition filter_data (selected_service : cell)
    (selected_region selected_department : list cell) (df : DataFrame)
  : pyresult DataFrame :=
  let filtered_df := df in
  filtered_df ←
    (if negb (cell_eqb selected_service (Str "All")) then
       s ← getitem filtered_df "Service";
       Ok (select filtered_df (map (λ c, cell_eqb c selected_service) s))
     else Ok filtered_df);
  filtered_df ←
    (match selected_region with
     | [] => Ok filtered_df
     | _ => s ← getitem filtered_df "Region";
            Ok (select filtered_df (map (cell_isin selected_region) s))
     end);
  match selected_department with
  | [] => Ok filtered_df
  | _ => s ← getitem filtered_df "Department";
         Ok (select filtered_df (map (cell_isin selected_department) s))
  end.

(** ** Views used in the proofs

    The group-by read off the rows of the frame: the summand a row
    contributes, and the step that adds a row to the running sums. *)

Definition no_text (c : cell) : bool :=
  match c with Str _ => false | _ => true end.

Definition float_of (c : cell) : option Q :=
  match c with Num q => Some q | _ => None end.

Definition row_add (k v : string) (m : gmap cell Q) (r : Row) : gmap cell Q :=
  group_add m (cell_at r k, float_of (cell_at r v)).

(** The fields of one unquoted line, [line.split(',')], and the rows of
    unquoted lines, blank lines left out. *)
Fixpoint split_from (f : text) (l : text) : list text :=
  match l with
  | [] => [f]
  | c :: l' =>
      if bool_decide (c = COMMA) then f :: split_from [] l'
      else split_from (f ++ [c]) l'
  end.

Definition records (content : list text) : list (list text) :=
  map (split_from []) (filter (λ l, l ≠ []) content).

(** Lines on which skipinitialspace and strip have nothing to do: no
    whitespace at either end of the line, no space right after a comma. *)
Definition edge_space (l : text) : bool :=
  match l with c :: _ => is_space c | [] => false end
  || match last l with Some c => is_space c | None => false end.

Fixpoint space_after_comma (l : text) : bool :=
  match l with
  | c :: l' =>
      match l' with
      | d :: _ => bool_decide (c = COMMA) && bool_decide (d = SPACE)
      | [] => false
      end || space_after_comma l'
  | [] => false
  end.

Definition unquoted (l : text) : Prop := (QUOTE ∉ l) ∧ (LF ∉ l) ∧ (CR ∉ l).

Definition tidy (l : text) : Prop :=
  edge_space l = false ∧ space_after_comma l = false.

(** A file of lines that end the same way, with a line feed (Unix), with
    carriage return and line feed (DOS), or with a carriage return. *)
Definition wrap (l : text) : text := QUOTE :: l ++ [QUOTE].

Definition file_with (eol : text) (content : list text) : text :=
  List.concat (map (λ l, l ++ eol) content).

Definition line_end (eol : text) : Prop :=
  eol = [LF] ∨ eol = [CR; LF] ∨ eol = [CR].

(** A file whose lines are each wrapped in one pair of double quotes, and
    the file of the same lines without the quotes. *)
Definition wrap_line (l : text) : text := QUOTE :: l ++ [QUOTE; LF].

Definition wrapped_file (content : list text) : text :=
  List.concat (map wrap_line content).

Definition plain_file (content : list text) : text :=
  List.concat (map (λ l, l ++ [LF]) content).

(** ** Example tables and files

    The table of the specification's example:

    [R1,Eng,ProjA,Alice,CC1,EC2,us-east,prod,Yes,120.50] and
    [R2,,,,,S3,us-west,dev,No,40.00] under the expected header. *)

Definition schema : list string :=
  ["ResourceID"; "Department"; "Project"; "Owner"; "CostCenter";
   "Service"; "Region"; "Environment"; "Tagged"; "MonthlyCostUSD"].

Definition record (cells : list cell) : Row := list_to_map (zip schema cells).

Definition R1 : Row :=
  record [Str "R1"; Str "Eng"; Str "ProjA"; Str "Alice"; Str "CC1";
          Str "EC2"; Str "us-east"; Str "prod"; Str "Yes"; Num 120.5%Q].

Definition R2 : Row :=
  record [Str "R2"; NaN; NaN; NaN; NaN;
          Str "S3"; Str "us-west"; Str "dev"; Str "No"; Num 40%Q].

Definition example_table : DataFrame := mkDF schema [R1; R2].

(** The example after a remediation export and reload: R2 has been given its
    four tags, and both rows carry the score column the export wrote, R2
    still with the score it had before the edit. *)

Definition scored (r : Row) (score : Q) (flag : string) : Row :=
  <["TagCompletenessScore" := Num score]> (<["Tagged" := Str flag]> r).

Definition R2_tagged : Row :=
  record [Str "R2"; Str "Ops"; Str "ProjB"; Str "Bob"; Str "CC2";
          Str "S3"; Str "us-west"; Str "dev"; Str "No"; Num 40%Q].

Definition reloaded_table : DataFrame :=
  mkDF (schema ++ ["TagCompletenessScore"])
       [scored R1 4 "Yes"; scored R2_tagged 0 "No"].

(** The example with a third row whose Tagged field was left blank in the
    file, and with one whose Tagged field holds another word. *)

Definition R3_blank : Row :=
  record [Str "R3"; Str "Eng"; Str "ProjA"; Str "Carol"; Str "CC1";
          Str "RDS"; Str "us-east"; Str "prod"; NaN; Num 10%Q].

Definition R4_maybe : Row :=
  record [Str "R4"; Str "Eng"; Str "ProjA"; Str "Dan"; Str "CC1";
          Str "EKS"; Str "us-east"; Str "prod"; Str "Maybe"; Num 7%Q].

Definition blank_flag_table : DataFrame := mkDF schema [R1; R2; R3_blank].
Definition odd_flag_table : DataFrame := mkDF schema [R1; R2; R4_maybe].

(** The example with every cost at zero, and the header-only table. *)

Definition zero_cost_table : DataFrame :=
  mkDF schema [<["MonthlyCostUSD" := Num 0]> R1; <["MonthlyCostUSD" := Num 0]> R2].

Definition header_only_table : DataFrame := mkDF schema [].

(** An untagged row that already has its four tags. *)
Definition R5 : Row :=
  record [Str "R5"; Str "Ops"; Str "ProjB"; Str "Eve"; Str "CC2";
          Str "EC2"; Str "us-west"; Str "dev"; Str "No"; Num 5%Q].

Definition mixed_table : DataFrame := mkDF schema [R1; R2; R5].

(** Two wrapped lines with a space after the comma. *)
Definition spaced_content : list text := [text_of "a, b"; text_of "1, x"].

(** The specification's example with a space after each comma. *)
Definition spaced_example_content : list text :=
  [text_of "ResourceID, Department, Project, Owner, CostCenter, Service, Region, Environment, Tagged, MonthlyCostUSD";
   text_of "R1, Eng, ProjA, Alice, CC1, EC2, us-east, prod, Yes, 120.50";
   text_of "R2, , , , , S3, us-west, dev, No, 40.00"].

(** The file of the specification's example, line by line. *)
Definition example_content : list text :=
  [text_of "ResourceID,Department,Project,Owner,CostCenter,Service,Region,Environment,Tagged,MonthlyCostUSD";
   text_of "R1,Eng,ProjA,Alice,CC1,EC2,us-east,prod,Yes,120.50";
   text_of "R2,,,,,S3,us-west,dev,No,40.00"].

(** A table read from a file whose header names carry blanks. *)
Definition padded_header_table : DataFrame :=
  mkDF [" ResourceID"; "Tagged "]
       [list_to_map [(" ResourceID", Str "R1"); ("Tagged ", Str "Yes")];
        list_to_map [(" ResourceID", Str "R2"); ("Tagged ", Str "No")]].

(** The two-key group-by read off the rows. *)
Definition row_add2 (k1 k2 v : string) (m : gmap (cell * cell) Q) (r : Row)
  : gmap (cell * cell) Q :=
  group_add2 m ((cell_at r k1, cell_at r k2), float_of (cell_at r v)).

(** The rows a selection keeps: all of them when nothing is selected. *)
Definition service_matches (selected_service : cell) (r : Row) : Prop :=
  cell_eqb selected_service (Str "All") = true ∨
  cell_eqb (cell_at r "Service") selected_service = true.

Definition values_match (col : string) (selected : list cell) (r : Row) : Prop :=
  selected = [] ∨ cell_isin selected (cell_at r col) = true.

(** The rows of the merged frame of line 162. *)
Definition merged_rows (df edited_df : DataFrame) : list Row :=
  filter (λ r, cell_at r "Tagged" = Str "Yes") (rows df)
  ++ map reflag (rows edited_df).

(** The rows that carry a given flag, and a row with its completeness
    score. *)
Definition flagged (v : cell) (df : DataFrame) : list Row :=
  filter (λ r, cell_at r "Tagged" = v) (rows df).




(** The example table under a lower-case header. *)
Definition lowercase_table : DataFrame :=
  mkDF ["resourceid"; "tagged"; "monthlycostusd"]
       [list_to_map [("resourceid", Str "R1"); ("tagged", Str "Yes");
                     ("monthlycostusd", Num 120.5%Q)]].

(** * Properties *)

(** ** Frames *)

Section frames.
Implicit Types (df : DataFrame) (r : Row) (c v : string).

Lemma mask_filter c v (l : list Row) :
  map fst (filter (λ rb, snd rb = true)
             (zip l (eq_str (map (λ r, cell_at r c) l) v)))
  = filter (λ r, cell_at r c = Str v) l.
Proof.
  induction l as [|r l IH]; [done|].
  cbn [map eq_str zip zip_with]. fold (eq_str (map (λ r, cell_at r c) l) v).
  fold (zip l (eq_str (map (λ r, cell_at r c) l) v)).
  rewrite !filter_cons. cbn [snd].
  destruct (decide (cell_at r c = Str v)) as [E|E].
  - rewrite (bool_decide_eq_true_2 _ E).
    destruct (decide (true = true)); [|done]. cbn. by rewrite IH.
  - rewrite (bool_decide_eq_false_2 _ E).
    destruct (decide (false = true)); [done|]. apply IH.
Qed.

Lemma where_eq_ok df c v :
  c ∈ columns df →
  where_eq df c v
  = Ok (mkDF (columns df) (filter (λ r, cell_at r c = Str v) (rows df))).
Proof.
  intros Hc. unfold where_eq, getitem. rewrite decide_True by done.
  cbn. unfold select. by rewrite mask_filter.
Qed.

Lemma where_eq_inv df c v d :
  where_eq df c v = Ok d →
  c ∈ columns df ∧
  d = mkDF (columns df) (filter (λ r, cell_at r c = Str v) (rows df)).
Proof.
  intros H. destruct (decide (c ∈ columns df)) as [Hc|Hc].
  - rewrite where_eq_ok in H by done. by injection H as <-.
  - unfold where_eq, getitem in H. by rewrite decide_False in H.
Qed.

Lemma getitems_ok df (cs : list string) :
  cs ⊆ columns df →
  getitems df cs = Ok (map (λ r, map (cell_at r) cs) (rows df)).
Proof.
  intros Hcs. unfold getitems.
  assert (filter (λ c, c ∉ columns df) cs = []) as ->; [|done].
  induction cs as [|c cs IH]; [done|].
  rewrite filter_cons. destruct (decide (c ∉ columns df)) as [Hn|_].
  - exfalso. apply Hn, Hcs. by left.
  - apply IH. intros x Hx. apply Hcs. by right.
Qed.

Lemma getitems_inv df (cs : list string) l :
  getitems df cs = Ok l →
  cs ⊆ columns df ∧ l = map (λ r, map (cell_at r) cs) (rows df).
Proof.
  unfold getitems. intros H.
  destruct (filter (λ c, c ∉ columns df) cs) as [|c0 l0] eqn:E; [|done].
  injection H as <-. split; [|done].
  intros c Hc. destruct (decide (c ∈ columns df)) as [|Hn]; [done|].
  exfalso. eapply (filter_nil_not_elem_of _ _ c E); done.
Qed.

Lemma setitem_rows df c (f : Row → cell) :
  rows (setitem df c (map f (rows df)))
  = map (λ r, <[c := f r]> r) (rows df).
Proof.
  unfold setitem. cbn. induction (rows df) as [|r l IH]; [done|].
  cbn. by rewrite IH.
Qed.

Lemma setitem_columns_mem df c vals : c ∈ columns (setitem df c vals).
Proof.
  unfold setitem. cbn. case_decide; [done|].
  apply elem_of_app. right. by left.
Qed.

Lemma cell_at_insert r c x : cell_at (<[c := x]> r) c = x.
Proof. unfold cell_at. by rewrite lookup_insert_eq. Qed.

Lemma cell_at_insert_ne r c c' x : c ≠ c' → cell_at (<[c := x]> r) c' = cell_at r c'.
Proof. intros. unfold cell_at. by rewrite lookup_insert_ne. Qed.

Lemma getitem_setitem df c (f : Row → cell) :
  getitem (setitem df c (map f (rows df))) c = Ok (map f (rows df)).
Proof.
  unfold getitem. rewrite decide_True by apply setitem_columns_mem.
  rewrite setitem_rows, map_map. f_equal.
  apply map_ext. intros r. apply cell_at_insert.
Qed.
End frames.

(** ** Completeness score *)

Lemma count_notnull_le cells : count_notnull cells ≤ length cells.
Proof. apply length_filter. Qed.

Lemma count_notnull_full cells :
  count_notnull cells = length cells ↔ Forall (λ c, notnull c = true) cells.
Proof.
  unfold count_notnull. induction cells as [|c cells IH]; [done|].
  rewrite filter_cons, Forall_cons. destruct (decide (notnull c = true)) as [E|E].
  - cbn. rewrite <- IH. split; [intros; split; [done|lia] | intros [_ ?]; lia].
  - pose proof (length_filter (λ c, notnull c = true) cells). cbn.
    split; [lia | intros [? _]; done].
Qed.

Lemma tag_cells_all (r : Row) :
  Forall (λ c, notnull c = true) (map (cell_at r) tag_fields)
  ↔ ∀ f, f ∈ tag_fields → notnull (cell_at r f) = true.
Proof. rewrite Forall_fmap, Forall_forall. done. Qed.

(** C7. Under the four tag columns, line 93 gives every record a score that
    is an integer between 0 and 4, and that is 4 exactly when all four tag
    fields of the record are non-null; the score is what the enriched frame
    holds in its TagCompletenessScore column. *)
Theorem completeness_score_range (df : DataFrame) :
  tag_fields ⊆ columns df →
  ∃ scores df',
    TagCompletenessScore df = Ok scores ∧
    enrich df = Ok df' ∧
    getitem df' "TagCompletenessScore" = Ok scores ∧
    Forall2 (λ (r : Row) (s : cell),
               ∃ n : nat, s = Num (Q_of_nat n) ∧ 0 ≤ n ≤ 4 ∧
                 (n = 4 ↔ ∀ f, f ∈ tag_fields → notnull (cell_at r f) = true))
            (rows df) scores.
Proof.
  intros Hcols.
  set (score := λ r : Row, score_cell (map (cell_at r) tag_fields)).
  assert (TagCompletenessScore df = Ok (map score (rows df))) as Hs.
  { unfold TagCompletenessScore. rewrite getitems_ok by done. cbn.
    by rewrite map_map. }
  exists (map score (rows df)), (setitem df "TagCompletenessScore" (map score (rows df))).
  split; [done|]. split; [by unfold enrich; rewrite Hs|].
  split; [apply getitem_setitem|].
  apply Forall2_fmap_r, Forall2_same_length_lookup. split; [done|].
  intros i r r' Hr Hr'. assert (r' = r) as -> by congruence.
  exists (count_notnull (map (cell_at r) tag_fields)). split; [done|].
  pose proof (count_notnull_le (map (cell_at r) tag_fields)) as Hle.
  rewrite length_map in Hle. cbn [tag_fields length] in Hle.
  split; [lia|].
  rewrite <- tag_cells_all, <- count_notnull_full, length_map. done.
Qed.

Lemma completeness_score_range_witness :
  tag_fields ⊆ columns example_table ∧
  ∃ scores df',
    TagCompletenessScore example_table = Ok scores ∧
    enrich example_table = Ok df' ∧
    getitem df' "TagCompletenessScore" = Ok scores ∧
    Forall2 (λ (r : Row) (s : cell),
               ∃ n : nat, s = Num (Q_of_nat n) ∧ 0 ≤ n ≤ 4 ∧
                 (n = 4 ↔ ∀ f, f ∈ tag_fields → notnull (cell_at r f) = true))
            (rows example_table) scores.
Proof.
  assert (tag_fields ⊆ columns example_table) as H
    by (refine (bool_decide_unpack _ _); vm_compute; exact I).
  split; [exact H | exact (completeness_score_range example_table H)].
Defined.

(** ** Recomputed flag *)

Lemma forallb_notnull cells :
  forallb notnull cells = true ↔ Forall (λ c, notnull c = true) cells.
Proof.
  induction cells as [|c cells IH]; cbn.
  - split; [constructor | done].
  - rewrite andb_true_iff, Forall_cons, IH. done.
Qed.

Lemma flag_cell_yes cells :
  flag_cell cells = Str "Yes" ↔ Forall (λ c, notnull c = true) cells.
Proof.
  rewrite <- forallb_notnull. unfold flag_cell.
  destruct (forallb notnull cells); split; done.
Qed.

Lemma flag_cell_no cells :
  flag_cell cells = Str "No" ↔ ¬ Forall (λ c, notnull c = true) cells.
Proof.
  rewrite <- forallb_notnull. unfold flag_cell.
  destruct (forallb notnull cells); split; try done.
Qed.

Lemma recompute_flags_ok (edited_df : DataFrame) :
  tag_fields ⊆ columns edited_df →
  recompute_flags edited_df
  = Ok (setitem edited_df "Tagged"
          (map (λ r, flag_cell (map (cell_at r) tag_fields)) (rows edited_df))).
Proof.
  intros H. unfold recompute_flags. rewrite getitems_ok by done. cbn.
  by rewrite map_map.
Qed.

Lemma recompute_flags_rows (edited_df edited' : DataFrame) :
  recompute_flags edited_df = Ok edited' →
  tag_fields ⊆ columns edited_df ∧ rows edited' = map reflag (rows edited_df).
Proof.
  unfold recompute_flags. intros H.
  destruct (getitems edited_df tag_fields) as [cells|e] eqn:E; [|done].
  apply getitems_inv in E as [Hc ->]. cbn in H. injection H as <-.
  split; [done|]. rewrite map_map. apply setitem_rows.
Qed.

(** C4. On every record the editor returns, the flag line 161 assigns is
    "Yes" exactly when the four tag fields of that record are all non-null,
    and "No" exactly when they are not; the other cells stay as edited. *)
Theorem recomputed_flag_iff (edited_df : DataFrame) :
  tag_fields ⊆ columns edited_df →
  ∃ edited',
    recompute_flags edited_df = Ok edited' ∧
    Forall2 (λ r r' : Row,
               (cell_at r' "Tagged" = Str "Yes"
                ↔ ∀ f, f ∈ tag_fields → notnull (cell_at r f) = true) ∧
               (cell_at r' "Tagged" = Str "No"
                ↔ ¬ ∀ f, f ∈ tag_fields → notnull (cell_at r f) = true) ∧
               (∀ c, c ≠ "Tagged" → r' !! c = r !! c))
            (rows edited_df) (rows edited').
Proof.
  intros Hcols. eexists. split; [by apply recompute_flags_ok|].
  rewrite setitem_rows. apply Forall2_fmap_r, Forall2_same_length_lookup.
  split; [done|]. intros i r r' Hr Hr'. assert (r' = r) as -> by congruence.
  unfold compose. cbv beta. rewrite cell_at_insert, flag_cell_yes, flag_cell_no, tag_cells_all.
  repeat split; try tauto. intros c Hc. by rewrite lookup_insert_ne.
Qed.

Lemma recomputed_flag_iff_witness :
  tag_fields ⊆ columns example_table ∧
  ∃ edited',
    recompute_flags example_table = Ok edited' ∧
    Forall2 (λ r r' : Row,
               (cell_at r' "Tagged" = Str "Yes"
                ↔ ∀ f, f ∈ tag_fields → notnull (cell_at r f) = true) ∧
               (cell_at r' "Tagged" = Str "No"
                ↔ ¬ ∀ f, f ∈ tag_fields → notnull (cell_at r f) = true) ∧
               (∀ c, c ≠ "Tagged" → r' !! c = r !! c))
            (rows example_table) (rows edited').
Proof.
  assert (tag_fields ⊆ columns example_table) as H
    by (refine (bool_decide_unpack _ _); vm_compute; exact I).
  split; [exact H | exact (recomputed_flag_iff example_table H)].
Defined.

(** ** Enrichment *)

(** C10, as stated, fails on a table that already has a column named
    TagCompletenessScore (the remediated export has one): line 93 then
    overwrites it, so no column is added and the values of a pre-existing
    column change. *)
Lemma enrich_overwrites_existing_column :
  ∃ df',
    enrich reloaded_table = Ok df' ∧
    columns df' = columns reloaded_table ∧
    "TagCompletenessScore" ∈ columns reloaded_table ∧
    getitem reloaded_table "TagCompletenessScore" = Ok [Num 4; Num 0] ∧
    getitem df' "TagCompletenessScore" = Ok [Num 4; Num 4].
Proof.
  eexists. split; [reflexivity|].
  split; [reflexivity|]. split; [by refine (bool_decide_unpack _ _)|].
  split; reflexivity.
Qed.

(** C10, amended. On a table that has the four tag columns and no column
    named TagCompletenessScore, the enrichment appends exactly that one
    column; the row count, the row order and every cell of every other
    column are what they were. *)
Theorem enrich_adds_one_column (df : DataFrame) :
  tag_fields ⊆ columns df →
  "TagCompletenessScore" ∉ columns df →
  ∃ df',
    enrich df = Ok df' ∧
    columns df' = columns df ++ ["TagCompletenessScore"] ∧
    len df' = len df ∧
    Forall2 (λ r r' : Row, ∀ c, c ≠ "TagCompletenessScore" → r' !! c = r !! c)
            (rows df) (rows df') ∧
    ∀ c, c ∈ columns df → getitem df' c = getitem df c.
Proof.
  intros Htags Hnew.
  set (score := λ r : Row, score_cell (map (cell_at r) tag_fields)).
  assert (enrich df = Ok (setitem df "TagCompletenessScore" (map score (rows df))))
    as Hen.
  { unfold enrich, TagCompletenessScore. rewrite getitems_ok by done. cbn.
    by rewrite map_map. }
  eexists. split; [exact Hen|].
  assert (Forall2 (λ r r' : Row, ∀ c, c ≠ "TagCompletenessScore" → r' !! c = r !! c)
            (rows df) (rows (setitem df "TagCompletenessScore" (map score (rows df)))))
    as Hrows.
  { rewrite setitem_rows. apply Forall2_fmap_r, Forall2_same_length_lookup.
    split; [done|]. intros i r r' Hr Hr'. assert (r' = r) as -> by congruence.
    unfold compose. intros c Hc. by rewrite lookup_insert_ne. }
  split; [by cbn; rewrite decide_False|].
  split; [by unfold len; rewrite setitem_rows, length_map|].
  split; [exact Hrows|].
  intros c Hc. unfold getitem.
  rewrite decide_True by (cbn; rewrite decide_False by done; set_solver).
  rewrite decide_True by done. f_equal.
  rewrite setitem_rows, map_map. apply map_ext. intros r.
  apply cell_at_insert_ne. intros <-. done.
Qed.

Lemma enrich_adds_one_column_witness :
  tag_fields ⊆ columns example_table ∧
  ("TagCompletenessScore" ∉ columns example_table) ∧
  ∃ df',
    enrich example_table = Ok df' ∧
    columns df' = columns example_table ++ ["TagCompletenessScore"] ∧
    len df' = len example_table ∧
    Forall2 (λ r r' : Row, ∀ c, c ≠ "TagCompletenessScore" → r' !! c = r !! c)
            (rows example_table) (rows df') ∧
    ∀ c, c ∈ columns example_table → getitem df' c = getitem example_table c.
Proof.
  assert (tag_fields ⊆ columns example_table) as H1
    by (refine (bool_decide_unpack _ _); vm_compute; exact I).
  assert ("TagCompletenessScore" ∉ columns example_table) as H2
    by (refine (bool_decide_unpack _ _); vm_compute; exact I).
  split; [exact H1|]. split; [exact H2|].
  exact (enrich_adds_one_column example_table H1 H2).
Defined.

(** ** Merge order *)

Lemma updated_df_ok (df edited_df : DataFrame) :
  "Tagged" ∈ columns df →
  tag_fields ⊆ columns edited_df →
  ∃ u,
    updated_df df edited_df = Ok u ∧
    rows u = filter (λ r, cell_at r "Tagged" = Str "Yes") (rows df)
             ++ map reflag (rows edited_df).
Proof.
  intros Hflag Htags. unfold updated_df.
  rewrite recompute_flags_ok by done. cbn.
  rewrite where_eq_ok by done. cbn. eexists. split; [done|].
  cbn. f_equal. apply setitem_rows.
Qed.

Lemma updated_df_inv (df edited_df u : DataFrame) :
  updated_df df edited_df = Ok u →
  "Tagged" ∈ columns df ∧ tag_fields ⊆ columns edited_df ∧
  rows u = filter (λ r, cell_at r "Tagged" = Str "Yes") (rows df)
           ++ map reflag (rows edited_df).
Proof.
  unfold updated_df. intros H.
  destruct (recompute_flags edited_df) as [e'|] eqn:E1; [|done].
  apply recompute_flags_rows in E1 as [Htags He']. cbn in H.
  destruct (where_eq df "Tagged" "Yes") as [t|] eqn:E2; [|done].
  apply where_eq_inv in E2 as [Hflag ->]. cbn in H. injection H as <-.
  repeat split; [done..|]. cbn. by rewrite He'.
Qed.

(** C5. Both merged frames, the one behind the download button (line 157)
    and the one of line 162, hold the rows of the original table whose flag
    is "Yes", untouched and in their original order, followed by the edited
    rows in the order the editor gave them; line 162 has only replaced the
    Tagged cell of each edited row. *)
Theorem merged_tagged_then_edited (df edited_df : DataFrame) :
  "Tagged" ∈ columns df →
  tag_fields ⊆ columns edited_df →
  ∃ c u edited',
    combined_df df edited_df = Ok c ∧
    updated_df df edited_df = Ok u ∧
    rows c = filter (λ r, cell_at r "Tagged" = Str "Yes") (rows df)
             ++ rows edited_df ∧
    rows u = filter (λ r, cell_at r "Tagged" = Str "Yes") (rows df)
             ++ edited' ∧
    Forall2 (λ r r' : Row, ∀ k, k ≠ "Tagged" → r' !! k = r !! k)
            (rows edited_df) edited'.
Proof.
  intros Hflag Htags.
  destruct (updated_df_ok df edited_df Hflag Htags) as (u & Hu & Hrows).
  exists (concat (mkDF (columns df)
                    (filter (λ r, cell_at r "Tagged" = Str "Yes") (rows df)))
                 edited_df), u, (map reflag (rows edited_df)).
  split; [by unfold combined_df; rewrite where_eq_ok|].
  split; [done|]. split; [done|]. split; [done|].
  apply Forall2_fmap_r, Forall2_same_length_lookup. split; [done|].
  intros i r r' Hr Hr'. assert (r' = r) as -> by congruence.
  unfold compose, reflag. intros k Hk. by rewrite lookup_insert_ne.
Qed.

Lemma merged_tagged_then_edited_witness :
  "Tagged" ∈ columns example_table ∧
  tag_fields ⊆ columns (mkDF schema [R2_tagged]) ∧
  ∃ c u edited',
    combined_df example_table (mkDF schema [R2_tagged]) = Ok c ∧
    updated_df example_table (mkDF schema [R2_tagged]) = Ok u ∧
    rows c = filter (λ r, cell_at r "Tagged" = Str "Yes") (rows example_table)
             ++ rows (mkDF schema [R2_tagged]) ∧
    rows u = filter (λ r, cell_at r "Tagged" = Str "Yes") (rows example_table)
             ++ edited' ∧
    Forall2 (λ r r' : Row, ∀ k, k ≠ "Tagged" → r' !! k = r !! k)
            (rows (mkDF schema [R2_tagged])) edited'.
Proof.
  assert ("Tagged" ∈ columns example_table) as H1
    by (refine (bool_decide_unpack _ _); vm_compute; exact I).
  assert (tag_fields ⊆ columns (mkDF schema [R2_tagged])) as H2
    by (refine (bool_decide_unpack _ _); vm_compute; exact I).
  split; [exact H1|]. split; [exact H2|].
  exact (merged_tagged_then_edited example_table (mkDF schema [R2_tagged]) H1 H2).
Defined.

(** ** Counts by tag status *)

Lemma counts_total_count_cell (c : cell) (m : gmap cell nat) :
  counts_total (count_cell c m)
  = (if notnull c then 1 else 0) + counts_total m.
Proof.
  unfold count_cell, counts_total. destruct (notnull c); [|done].
  assert (∀ (m' : gmap cell nat) (j1 j2 : cell) (z1 z2 y : nat),
            j1 ≠ j2 → m' !! j1 = Some z1 → m' !! j2 = Some z2 →
            z1 + (z2 + y) = z2 + (z1 + y)) as Hcomm by (intros; lia).
  destruct (m !! c) as [n|] eqn:E; cbn.
  - rewrite <- insert_delete_eq.
    rewrite map_fold_insert_L; [|by eauto..|by rewrite lookup_delete_eq].
    rewrite (map_fold_delete_L _ _ c n m); [lia|by eauto..|done].
  - rewrite map_fold_insert_L; [done|by eauto..|done].
Qed.

Lemma value_counts_total (s : list cell) :
  counts_total (value_counts s) = length (filter (λ c, notnull c = true) s).
Proof.
  induction s as [|c s IH]; [done|].
  cbn [value_counts foldr]. fold (value_counts s).
  rewrite counts_total_count_cell, IH, filter_cons.
  destruct (notnull c); [rewrite decide_True by done|rewrite decide_False by done];
    done.
Qed.

(** C6, as stated, fails on a table with a null flag: value_counts leaves
    nulls out, so the counts of the three-row table with one blank Tagged
    field add up to 2. *)
Lemma null_flag_not_counted :
  ∃ counts,
    tagged_counts blank_flag_table = Ok counts ∧
    counts_total counts = 2 ∧
    len blank_flag_table = 3.
Proof. eexists. repeat split; vm_compute; reflexivity. Qed.

(** C6, amended. The per-flag counts add up to the number of rows whose
    Tagged value is non-null; they add up to the number of rows of the table
    when no row has a null Tagged value. *)
Theorem tagged_counts_total (df : DataFrame) :
  "Tagged" ∈ columns df →
  ∃ counts,
    tagged_counts df = Ok counts ∧
    counts_total counts
    = length (filter (λ r, notnull (cell_at r "Tagged") = true) (rows df)) ∧
    ((∀ r, r ∈ rows df → notnull (cell_at r "Tagged") = true) →
     counts_total counts = len df).
Proof.
  intros Hflag. unfold tagged_counts, getitem. rewrite decide_True by done.
  eexists. split; [reflexivity|].
  assert (counts_total (value_counts (map (λ r, cell_at r "Tagged") (rows df)))
          = length (filter (λ r, notnull (cell_at r "Tagged") = true) (rows df)))
    as Htot.
  { rewrite value_counts_total. induction (rows df) as [|r l IH]; [done|].
    cbn [map]. rewrite !filter_cons.
    destruct (decide (notnull (cell_at r "Tagged") = true)); cbn; by rewrite IH. }
  split; [exact Htot|]. rewrite Htot. unfold len. clear Htot.
  induction (rows df) as [|r l IH]; [done|]. intros Hall.
  rewrite filter_cons, decide_True by (apply Hall; by left).
  cbn. rewrite IH; [done|]. intros r' Hr'. apply Hall. by right.
Qed.

Lemma tagged_counts_total_witness :
  "Tagged" ∈ columns example_table ∧
  ∃ counts,
    tagged_counts example_table = Ok counts ∧
    counts_total counts
    = length (filter (λ r, notnull (cell_at r "Tagged") = true)
                (rows example_table)) ∧
    ((∀ r, r ∈ rows example_table → notnull (cell_at r "Tagged") = true) →
     counts_total counts = len example_table).
Proof.
  assert ("Tagged" ∈ columns example_table) as H1
    by (refine (bool_decide_unpack _ _); vm_compute; exact I).
  split; [exact H1 | exact (tagged_counts_total example_table H1)].
Defined.

(** ** Percentages *)

Lemma truediv_by_zero (a b : scalar) :
  Qeq_bool (scalar_val b) 0 = true →
  truediv a b = Raise ZeroDivisionError ∨
  truediv a b = Ok nan ∨ ∃ s, truediv a b = Ok (inf s).
Proof.
  intros Hz. unfold truediv.
  destruct a as [x|x], b as [y|y]; cbn in Hz |- *; rewrite Hz; eauto;
    destruct (Qeq_bool x 0); eauto.
Qed.

(** C2. The divisions of lines 63, 70 and 170 are not guarded.  On a table
    without rows line 63 divides the Python int 0 by [len(df) = 0] and raises
    ZeroDivisionError; and whenever the total cost is zero the cost
    percentage, before or after remediation, is never a finite number: it
    raises, or is nan or an infinity. *)
Theorem percent_division_unguarded :
  (∀ df, "Tagged" ∈ columns df → rows df = [] →
         percent_untagged df = Raise ZeroDivisionError) ∧
  (∀ dtype df total,
     total_cost dtype df = Ok total →
     Qeq_bool (scalar_val total) 0 = true →
     ∀ q, percent_cost dtype df ≠ Ok (Fin q)).
Proof.
  split.
  - intros df Hflag Hrows. unfold percent_untagged, tagged_counts, getitem, len.
    rewrite decide_True by done. by rewrite Hrows.
  - intros dtype df total Htot Hz q. unfold percent_cost.
    destruct (cost_by_tag df) as [by_tag|]; [|done]. cbn.
    rewrite Htot. cbn.
    destruct (truediv_by_zero (get_or_0 id by_tag (Str "No")) total Hz)
      as [-> | [-> | [s ->]]]; done.
Qed.

Lemma percent_division_unguarded_witness :
  percent_untagged header_only_table = Raise ZeroDivisionError ∧
  percent_untagged_cost zero_cost_table = Ok nan ∧
  ∀ q, percent_cost false zero_cost_table ≠ Ok (Fin q).
Proof.
  split; [|split].
  - apply (proj1 percent_division_unguarded).
    + refine (bool_decide_unpack _ _); vm_compute; exact I.
    + reflexivity.
  - vm_compute; reflexivity.
  - apply (proj2 percent_division_unguarded false zero_cost_table (Np 0));
      vm_compute; reflexivity.
Defined.

(** In script order line 63 is the first statement to raise on a table
    without rows, here the one of the header-only file: none of the later
    statements runs. *)
Remark metrics_stop_on_empty_table :
  metrics header_only_table = Raise ZeroDivisionError ∧
  (df ← load (plain_file (take 1 example_content)); Ok (columns df, len df))
  = Ok (schema, 0) ∧
  (df ← load (plain_file (take 1 example_content)); metrics df)
  = Raise ZeroDivisionError.
Proof. split; [|split]; vm_compute; reflexivity. Qed.

(** ** Arg-max of the cost group-bys *)

Lemma groupby_sum_no_rows (df : DataFrame) (k v : string) :
  k ∈ columns df → v ∈ columns df → rows df = [] →
  groupby_sum df k v = Ok ∅.
Proof.
  intros Hk Hv Hrows. unfold groupby_sum, getitem.
  rewrite !decide_True by done. by rewrite Hrows.
Qed.

(** C8. Whenever the group-by behind an arg-max is empty, the arg-max is the
    text "N/A"; on a table that has the columns, this is the case of both
    arg-maxes when the table has no rows, and of the department one when no
    row is untagged. *)
Theorem argmax_na_when_empty (df : DataFrame) :
  "Tagged" ∈ columns df → "Department" ∈ columns df →
  "Project" ∈ columns df → "MonthlyCostUSD" ∈ columns df →
  (untagged_dept_cost df = Ok ∅ → dept_most_untagged_cost df = Ok (Str "N/A")) ∧
  (project_cost df = Ok ∅ → project_most_cost df = Ok (Str "N/A")) ∧
  (rows df = [] →
   untagged_dept_cost df = Ok ∅ ∧ dept_most_untagged_cost df = Ok (Str "N/A") ∧
   project_cost df = Ok ∅ ∧ project_most_cost df = Ok (Str "N/A")) ∧
  ((∀ r, r ∈ rows df → cell_at r "Tagged" ≠ Str "No") →
   untagged_dept_cost df = Ok ∅ ∧ dept_most_untagged_cost df = Ok (Str "N/A")).
Proof.
  intros Hflag Hdept Hproj Hcost.
  assert (untagged_dept_cost df = Ok ∅ →
          dept_most_untagged_cost df = Ok (Str "N/A")) as Hd.
  { intros H. unfold dept_most_untagged_cost. by rewrite H. }
  assert (project_cost df = Ok ∅ → project_most_cost df = Ok (Str "N/A")) as Hp.
  { intros H. unfold project_most_cost. by rewrite H. }
  assert ((∀ r, r ∈ rows df → cell_at r "Tagged" ≠ Str "No") →
          untagged_dept_cost df = Ok ∅) as Hnone.
  { intros Hno. unfold untagged_dept_cost. rewrite where_eq_ok by done. cbn.
    apply groupby_sum_no_rows; [done..|]. cbn.
    induction (rows df) as [|r l IH]; [done|].
    rewrite filter_cons, decide_False by (apply Hno; by left).
    apply IH. intros r' Hr'. apply Hno. by right. }
  split; [done|]. split; [done|]. split.
  - intros Hrows.
    assert (untagged_dept_cost df = Ok ∅) as H1.
    { apply Hnone. rewrite Hrows. intros r Hr. by apply elem_of_nil in Hr. }
    assert (project_cost df = Ok ∅) as H2 by by apply groupby_sum_no_rows.
    auto.
  - intros Hno. auto.
Qed.

Lemma argmax_na_when_empty_witness :
  "Tagged" ∈ columns header_only_table ∧
  "Department" ∈ columns header_only_table ∧
  "Project" ∈ columns header_only_table ∧
  "MonthlyCostUSD" ∈ columns header_only_table ∧
  rows header_only_table = [] ∧
  dept_most_untagged_cost header_only_table = Ok (Str "N/A") ∧
  project_most_cost header_only_table = Ok (Str "N/A").
Proof.
  assert ("Tagged" ∈ columns header_only_table) as H1
    by (refine (bool_decide_unpack _ _); vm_compute; exact I).
  assert ("Department" ∈ columns header_only_table) as H2
    by (refine (bool_decide_unpack _ _); vm_compute; exact I).
  assert ("Project" ∈ columns header_only_table) as H3
    by (refine (bool_decide_unpack _ _); vm_compute; exact I).
  assert ("MonthlyCostUSD" ∈ columns header_only_table) as H4
    by (refine (bool_decide_unpack _ _); vm_compute; exact I).
  pose proof (argmax_na_when_empty header_only_table H1 H2 H3 H4)
    as (_ & _ & Hrows & _).
  destruct (Hrows eq_refl) as (_ & Hd & _ & Hp).
  repeat split; assumption.
Defined.

(** ** Group-by sums *)

Lemma values_eq (e : exn) (s : list cell) :
  values e s = if forallb no_text s then Ok (map float_of s) else Raise e.
Proof.
  induction s as [|c s IH]; [done|].
  cbn [values forallb map]. rewrite IH.
  destruct c; cbn; try done; by destruct (forallb no_text s).
Qed.

Lemma numeric_eq (s : list cell) :
  numeric s = if forallb no_text s then Ok (map float_of s) else Raise Unsupported.
Proof. apply values_eq. Qed.

Lemma groupby_sum_eq (df : DataFrame) (k v : string) :
  groupby_sum df k v
  = if decide (k ∈ columns df) then
      if decide (v ∈ columns df) then
        if forallb (λ r, no_text (cell_at r v)) (rows df)
        then Ok (foldl (row_add k v) ∅ (rows df))
        else Raise Unsupported
      else Raise (KeyError v)
    else Raise (KeyError k).
Proof.
  unfold groupby_sum, getitem.
  destruct (decide (k ∈ columns df)); [|done].
  destruct (decide (v ∈ columns df)); [|done]. cbn.
  rewrite numeric_eq.
  assert (forallb no_text (map (λ r, cell_at r v) (rows df))
          = forallb (λ r, no_text (cell_at r v)) (rows df)) as ->.
  { induction (rows df) as [|r l IH]; [done|]. cbn. by rewrite IH. }
  destruct (forallb _ (rows df)); [|done]. cbn. f_equal.
  generalize (∅ : gmap cell Q).
  induction (rows df) as [|r l IH]; [done|]. intros m. cbn. apply IH.
Qed.

Lemma group_add_commute (m : gmap cell Q) (a b : cell * option Q) :
  a.1 ≠ b.1 → group_add (group_add m a) b = group_add (group_add m b) a.
Proof.
  intros Hne. unfold group_add.
  destruct (notnull a.1), (notnull b.1); try done.
  rewrite !lookup_insert_ne by done. by apply insert_insert_ne.
Qed.

(** Moving the rows of one key in front of those of another, each group
    keeping its order, changes neither what a filter on the key selects nor
    what a fold that commutes on distinct keys computes. *)
Section stable_partition.
Context {A M : Type} (key : A → cell) (k1 k2 : cell) (Hne : k1 ≠ k2).
Context (add : M → A → M).
Context (Hadd : ∀ m a b, key a ≠ key b → add (add m a) b = add (add m b) a).

Lemma filter_key_same (l : list A) :
  filter (λ x, key x = k1) (filter (λ x, key x = k1) l)
  = filter (λ x, key x = k1) l.
Proof.
  induction l as [|a l IH]; [done|]. rewrite filter_cons.
  destruct (decide (key a = k1)) as [E|E]; [|done].
  by rewrite filter_cons, decide_True, IH.
Qed.

Lemma filter_key_other (l : list A) :
  filter (λ x, key x = k1) (filter (λ x, key x = k2) l) = [].
Proof.
  induction l as [|a l IH]; [done|]. rewrite filter_cons.
  destruct (decide (key a = k2)) as [E|E]; [|done].
  rewrite filter_cons, decide_False; [done|congruence].
Qed.

Lemma partition_Permutation (l : list A) :
  Forall (λ x, key x = k1 ∨ key x = k2) l →
  filter (λ x, key x = k1) l ++ filter (λ x, key x = k2) l ≡ₚ l.
Proof.
  induction 1 as [|a l [E|E] _ IH]; [done|..]; rewrite !filter_cons.
  - rewrite decide_True, decide_False by congruence. cbn. by rewrite IH.
  - rewrite decide_False, decide_True by congruence.
    rewrite <- Permutation_middle. by rewrite IH.
Qed.

Lemma forallb_partition (f : A → bool) (l : list A) :
  Forall (λ x, key x = k1 ∨ key x = k2) l →
  forallb f (filter (λ x, key x = k1) l ++ filter (λ x, key x = k2) l)
  = forallb f l.
Proof.
  induction 1 as [|a l [E|E] _ IH]; [done|..]; rewrite !filter_cons.
  - rewrite decide_True, decide_False by congruence. cbn. by rewrite IH.
  - rewrite decide_False, decide_True by congruence.
    rewrite forallb_app in *. cbn. rewrite <- IH.
    destruct (f a), (forallb f (filter (λ x, key x = k1) l)); done.
Qed.

Lemma foldl_move_front (m : M) (a : A) (l1 l2 : list A) :
  Forall (λ b, key b ≠ key a) l1 →
  foldl add m (l1 ++ a :: l2) = foldl add m (a :: l1 ++ l2).
Proof.
  intros H. revert m. induction H as [|b l1 Hb _ IH]; intros m; [done|].
  cbn. rewrite IH. cbn. by rewrite Hadd.
Qed.

Lemma foldl_partition (m : M) (l : list A) :
  Forall (λ x, key x = k1 ∨ key x = k2) l →
  foldl add m (filter (λ x, key x = k1) l ++ filter (λ x, key x = k2) l)
  = foldl add m l.
Proof.
  intros H. revert m. induction H as [|a l [E|E] _ IH]; intros m; [done|..];
    rewrite !filter_cons.
  - rewrite decide_True, decide_False by congruence. cbn. apply IH.
  - rewrite decide_False, decide_True by congruence.
    rewrite foldl_move_front; [cbn; apply IH|].
    apply Forall_forall. intros b Hb.
    apply list_elem_of_filter in Hb as [Hb _]. congruence.
Qed.
End stable_partition.

(** ** Remediation recompute *)

Lemma reflag_flag (r : Row) :
  cell_at (reflag r) "Tagged" = Str "Yes" ∨ cell_at (reflag r) "Tagged" = Str "No".
Proof.
  unfold reflag. rewrite cell_at_insert. unfold flag_cell.
  destruct (forallb notnull _); auto.
Qed.

Lemma reflag_idem (r : Row) : reflag (reflag r) = reflag r.
Proof.
  unfold reflag at 1.
  assert (map (cell_at (reflag r)) tag_fields = map (cell_at r) tag_fields) as ->.
  { unfold reflag. cbn. by rewrite !cell_at_insert_ne. }
  unfold reflag. apply insert_insert_eq.
Qed.

Lemma map_reflag_filter (k : cell) (l : list Row) :
  map reflag (filter (λ r, cell_at r "Tagged" = k) (map reflag l))
  = filter (λ r, cell_at r "Tagged" = k) (map reflag l).
Proof.
  induction l as [|r l IH]; [done|]. cbn [map]. rewrite filter_cons.
  destruct (decide (cell_at (reflag r) "Tagged" = k)); [|done].
  cbn [map]. by rewrite reflag_idem, IH.
Qed.

Lemma filter_not_elem_of_self (l : list string) : filter (λ c, c ∉ l) l = [].
Proof.
  assert (∀ k, k ⊆ l → filter (λ c, c ∉ l) k = []) as H; [|by apply H].
  induction k as [|c k IH]; [done|]. intros Hk.
  rewrite filter_cons, decide_False.
  - apply IH. intros x Hx. apply Hk. by right.
  - intros Hc. apply Hc, Hk. by left.
Qed.

Lemma updated_df_columns (df edited_df u : DataFrame) :
  updated_df df edited_df = Ok u →
  "Tagged" ∈ columns df → columns edited_df = columns df →
  columns u = columns df.
Proof.
  unfold updated_df. intros H Hflag Hcols.
  destruct (recompute_flags edited_df) as [e'|] eqn:E1; [|done].
  unfold recompute_flags in E1.
  destruct (getitems edited_df tag_fields) as [cells|]; [|done].
  cbn in E1. injection E1 as <-. cbn in H.
  rewrite where_eq_ok in H by done. cbn in H. injection H as <-.
  cbn. rewrite Hcols, decide_True by done.
  by rewrite filter_not_elem_of_self, app_nil_r.
Qed.

(** The recompute returns its input when no row is untagged, and the merged
    frame otherwise. *)
Lemma recompute_rows (df : DataFrame) :
  "Tagged" ∈ columns df → tag_fields ⊆ columns df →
  ∃ u,
    recompute df = Ok u ∧ columns u = columns df ∧
    ((filter (λ r, cell_at r "Tagged" = Str "No") (rows df) = [] ∧ u = df) ∨
     (filter (λ r, cell_at r "Tagged" = Str "No") (rows df) ≠ [] ∧
      rows u = filter (λ r, cell_at r "Tagged" = Str "Yes") (rows df)
               ++ map reflag
                    (filter (λ r, cell_at r "Tagged" = Str "No") (rows df)))).
Proof.
  intros Hflag Htags. unfold recompute. rewrite where_eq_ok by done. cbn.
  unfold empty. cbn.
  assert (bool_decide (columns df = []) = false) as ->.
  { apply bool_decide_eq_false. intros E. rewrite E in Hflag.
    by apply elem_of_nil in Hflag. }
  rewrite orb_false_r. case_bool_decide as Hnone.
  { exists df. split; [done|]. split; [done|]. by left. }
  set (untagged := mkDF _ _).
  destruct (updated_df_ok df untagged Hflag Htags) as (u & Hu & Hrows).
  exists u. split; [done|]. split; [|by right].
  by apply (updated_df_columns df untagged).
Qed.

Lemma cost_by_tag_congr (d1 d2 : DataFrame) :
  columns d1 = columns d2 →
  forallb (λ r, no_text (cell_at r "MonthlyCostUSD")) (rows d1)
  = forallb (λ r, no_text (cell_at r "MonthlyCostUSD")) (rows d2) →
  foldl (row_add "Tagged" "MonthlyCostUSD") ∅ (rows d1)
  = foldl (row_add "Tagged" "MonthlyCostUSD") ∅ (rows d2) →
  cost_by_tag d1 = cost_by_tag d2.
Proof.
  intros Hc Hf Hs. unfold cost_by_tag. rewrite !groupby_sum_eq.
  by rewrite Hc, Hf, Hs.
Qed.

(** The second pass over rows that a first pass has merged: the tagged rows
    [Y], then the re-flagged rows [E]. *)
Lemma second_pass (Y E : list Row) :
  Forall (λ r, cell_at r "Tagged" = Str "Yes") Y →
  let yes := λ r : Row, cell_at r "Tagged" = Str "Yes" in
  let no := λ r : Row, cell_at r "Tagged" = Str "No" in
  let rows1 := Y ++ map reflag E in
  let rows2 := filter yes rows1 ++ map reflag (filter no rows1) in
  rows2 ≡ₚ rows1 ∧
  filter yes rows2 = filter yes rows1 ∧
  filter no rows2 = filter no rows1 ∧
  forallb (λ r, no_text (cell_at r "MonthlyCostUSD")) rows2
  = forallb (λ r, no_text (cell_at r "MonthlyCostUSD")) rows1 ∧
  foldl (row_add "Tagged" "MonthlyCostUSD") ∅ rows2
  = foldl (row_add "Tagged" "MonthlyCostUSD") ∅ rows1.
Proof.
  intros HY yes no rows1 rows2.
  assert (Str "Yes" ≠ Str "No") as Hyn by done.
  assert (Str "No" ≠ Str "Yes") as Hny by done.
  assert (filter yes Y = Y) as HyY.
  { clear -HY. induction HY as [|r Y Hr _ IH]; [done|].
    unfold yes in *. by rewrite filter_cons, decide_True, IH. }
  assert (filter no Y = []) as HnY.
  { rewrite <- HyY. by apply (filter_key_other (λ r : Row, cell_at r "Tagged")). }
  assert (Forall (λ r, cell_at r "Tagged" = Str "Yes" ∨ cell_at r "Tagged" = Str "No")
            (map reflag E)) as HE.
  { apply Forall_fmap, Forall_forall. intros r _. apply reflag_flag. }
  assert (rows2 = Y ++ filter yes (map reflag E) ++ filter no (map reflag E))
    as ->.
  { unfold rows2, rows1. rewrite !filter_app, HyY, HnY. cbn [app].
    unfold no. by rewrite map_reflag_filter, <- app_assoc. }
  unfold rows1, yes, no. split; [|split; [|split; [|split]]].
  - f_equiv. by apply (partition_Permutation (λ r : Row, cell_at r "Tagged")).
  - rewrite !filter_app. f_equal.
    rewrite (filter_key_same (λ r : Row, cell_at r "Tagged")).
    rewrite (filter_key_other (λ r : Row, cell_at r "Tagged")) by done.
    by rewrite app_nil_r.
  - rewrite !filter_app. f_equal.
    rewrite (filter_key_same (λ r : Row, cell_at r "Tagged")).
    by rewrite (filter_key_other (λ r : Row, cell_at r "Tagged")).
  - rewrite !(forallb_app _ Y). f_equal.
    by apply (forallb_partition (λ r : Row, cell_at r "Tagged")).
  - rewrite !(foldl_app _ Y).
    apply (foldl_partition (λ r : Row, cell_at r "Tagged")); [done| |done].
    intros m a b Hab. by apply group_add_commute.
Qed.

(** C3. Applied to the table a first recompute leaves, and with the editor
    left untouched, the recompute returns a table with the same records
    under the same flags (the same rows up to order, the same tagged rows
    and the same untagged rows, each in the same order) and the same cost
    per tag status. *)
Theorem recompute_idempotent (df : DataFrame) :
  "Tagged" ∈ columns df → tag_fields ⊆ columns df →
  ∃ u u2,
    recompute df = Ok u ∧
    recompute u = Ok u2 ∧
    rows u2 ≡ₚ rows u ∧
    filter (λ r, cell_at r "Tagged" = Str "Yes") (rows u2)
    = filter (λ r, cell_at r "Tagged" = Str "Yes") (rows u) ∧
    filter (λ r, cell_at r "Tagged" = Str "No") (rows u2)
    = filter (λ r, cell_at r "Tagged" = Str "No") (rows u) ∧
    cost_by_tag u2 = cost_by_tag u.
Proof.
  intros Hflag Htags.
  destruct (recompute_rows df Hflag Htags)
    as (u & Hu & Hcols & [[_ ->]|[_ Hrows]]).
  { exists df, df. repeat split; done. }
  assert ("Tagged" ∈ columns u) as Hflag' by by rewrite Hcols.
  assert (tag_fields ⊆ columns u) as Htags' by by rewrite Hcols.
  destruct (recompute_rows u Hflag' Htags')
    as (u2 & Hu2 & Hcols2 & [[_ ->]|[_ Hrows2]]).
  { exists u, u. repeat split; done. }
  exists u, u2. split; [done|]. split; [done|].
  set (Y := filter (λ r, cell_at r "Tagged" = Str "Yes") (rows df)) in *.
  set (E := filter (λ r, cell_at r "Tagged" = Str "No") (rows df)) in *.
  assert (Forall (λ r, cell_at r "Tagged" = Str "Yes") Y) as HY.
  { apply Forall_forall. intros r Hr.
    by apply list_elem_of_filter in Hr as [? _]. }
  pose proof (second_pass Y E HY) as (Hperm & Hyes & Hno & Hf & Hs).
  rewrite <- Hrows in *. rewrite <- Hrows2 in *.
  repeat split; try done.
  by apply cost_by_tag_congr.
Qed.

Lemma recompute_idempotent_witness :
  "Tagged" ∈ columns mixed_table ∧ tag_fields ⊆ columns mixed_table ∧
  ∃ u u2,
    recompute mixed_table = Ok u ∧
    recompute u = Ok u2 ∧
    rows u2 ≡ₚ rows u ∧
    filter (λ r, cell_at r "Tagged" = Str "Yes") (rows u2)
    = filter (λ r, cell_at r "Tagged" = Str "Yes") (rows u) ∧
    filter (λ r, cell_at r "Tagged" = Str "No") (rows u2)
    = filter (λ r, cell_at r "Tagged" = Str "No") (rows u) ∧
    cost_by_tag u2 = cost_by_tag u.
Proof.
  assert ("Tagged" ∈ columns mixed_table) as H1
    by (refine (bool_decide_unpack _ _); vm_compute; exact I).
  assert (tag_fields ⊆ columns mixed_table) as H2
    by (refine (bool_decide_unpack _ _); vm_compute; exact I).
  split; [exact H1|]. split; [exact H2|].
  exact (recompute_idempotent mixed_table H1 H2).
Defined.

(** The second pass may still reorder the rows: R5, untagged in the file but
    holding its four tags, is flagged "Yes" by the first pass and moved in
    front of R2 by the second. *)
Remark recompute_twice_reorders :
  ∃ u u2,
    recompute mixed_table = Ok u ∧ recompute u = Ok u2 ∧
    getitem u "ResourceID" = Ok [Str "R1"; Str "R2"; Str "R5"] ∧
    getitem u "Tagged" = Ok [Str "Yes"; Str "No"; Str "Yes"] ∧
    getitem u2 "ResourceID" = Ok [Str "R1"; Str "R5"; Str "R2"] ∧
    getitem u2 "Tagged" = Ok [Str "Yes"; Str "Yes"; Str "No"].
Proof. do 2 eexists. repeat split; vm_compute; reflexivity. Qed.

(** ** Rows with unexpected flags *)


Lemma value_counts_lookup (s : list cell) (v : cell) :
  notnull v = true →
  default 0 (value_counts s !! v) = length (filter (λ c, c = v) s).
Proof.
  intros Hv. induction s as [|c s IH]; [done|].
  cbn [value_counts foldr]. fold (value_counts s). unfold count_cell.
  rewrite filter_cons. destruct (decide (c = v)) as [->|Hne].
  - rewrite Hv, lookup_insert_eq. cbn. by rewrite IH.
  - destruct (notnull c); [|done]. by rewrite lookup_insert_ne.
Qed.

(** ** Ingestion of a file with wrapped lines *)

Lemma lstrip_not_space (c : ascii) (s : text) :
  is_space c = false → lstrip (c :: s) = c :: s.
Proof. intros H. cbn. by rewrite H. Qed.

Lemma rstrip_snoc_space (s : text) (c : ascii) :
  is_space c = true → rstrip (s ++ [c]) = rstrip s.
Proof. intros H. unfold rstrip. rewrite List.rev_app_distr. cbn. by rewrite H. Qed.

Lemma rstrip_snoc_keep (s : text) (c : ascii) :
  is_space c = false → rstrip (s ++ [c]) = s ++ [c].
Proof.
  intros H. unfold rstrip. rewrite List.rev_app_distr. cbn. rewrite H.
  cbn. by rewrite List.rev_involutive.
Qed.

Lemma process_wrapped_line (l : text) : process_line (wrap_line l) = l.
Proof.
  unfold process_line, wrap_line.
  assert (strip (QUOTE :: l ++ [QUOTE; LF]) = QUOTE :: l ++ [QUOTE]) as ->.
  { unfold strip. rewrite lstrip_not_space by done.
    replace (QUOTE :: l ++ [QUOTE; LF]) with (((QUOTE :: l) ++ [QUOTE]) ++ [LF])
      by (by rewrite <- app_assoc).
    rewrite rstrip_snoc_space by done. by rewrite rstrip_snoc_keep. }
  assert (endswith_quote (QUOTE :: l ++ [QUOTE]) = true) as ->.
  { unfold endswith_quote.
    change (QUOTE :: l ++ [QUOTE]) with ((QUOTE :: l) ++ [QUOTE]).
    by rewrite last_snoc. }
  cbn. unfold slice_1_m1. cbn. apply removelast_last.
Qed.

Lemma wrap_line_eq (l : text) : wrap l ++ [LF] = wrap_line l.
Proof. unfold wrap, wrap_line. cbn. by rewrite <- app_assoc. Qed.

(** Universal newlines over one line and its end. *)
Lemma universal_newlines_app (l rest : text) :
  CR ∉ l → universal_newlines (l ++ rest) = l ++ universal_newlines rest.
Proof.
  induction l as [|c l IH]; intros Hl; [done|]. cbn.
  rewrite bool_decide_eq_false_2 by (intros ->; apply Hl; by left).
  by rewrite IH by (intros ?; apply Hl; by right).
Qed.

Lemma universal_newlines_eol (eol rest : text) :
  line_end eol → (eol = [CR] → ∀ r, rest ≠ LF :: r) →
  universal_newlines (eol ++ rest) = LF :: universal_newlines rest.
Proof.
  intros [->|[->| ->]] Hrest; [done|done|].
  destruct rest as [|d r]; [done|]. cbn.
  rewrite (bool_decide_eq_false_2 (d = LF)) by (intros ->; by apply (Hrest eq_refl r)).
  done.
Qed.

Lemma file_with_no_leading_lf (eol : text) (content : list text) :
  line_end eol → eol ≠ [LF] → Forall (λ l, LF ∉ l) content →
  ∀ r, file_with eol content ≠ LF :: r.
Proof.
  intros Heol Hne Hc r. destruct Hc as [|l content Hl _]; [done|].
  unfold file_with. cbn [map List.concat].
  destruct l as [|c l].
  - destruct Heol as [->|[->| ->]]; done.
  - cbn. intros [= -> _]. apply Hl. by left.
Qed.

Lemma readlines_from_line (cur l rest : text) :
  LF ∉ l →
  readlines_from cur (l ++ LF :: rest) = (cur ++ l ++ [LF]) :: readlines_from [] rest.
Proof.
  revert cur. induction l as [|c l IH]; intros cur Hl; cbn.
  - done.
  - rewrite bool_decide_eq_false_2 by (intros ->; apply Hl; by left).
    rewrite IH by (intros ?; apply Hl; by right).
    by rewrite <- app_assoc.
Qed.

(** The lines of a file, whatever ends them. *)
Lemma readlines_file_with (eol : text) (content : list text) :
  line_end eol → Forall (λ l, LF ∉ l) content → Forall (λ l, CR ∉ l) content →
  readlines (file_with eol content) = map (λ l, l ++ [LF]) content.
Proof.
  intros Heol Hlf Hcr. unfold readlines.
  induction Hlf as [|l content Hl Hlf IH]; [done|].
  apply Forall_cons in Hcr as [Hc Hcr].
  unfold file_with. cbn [map List.concat]. fold (file_with eol content).
  rewrite <- app_assoc, universal_newlines_app by done.
  rewrite universal_newlines_eol; [|done|].
  - rewrite readlines_from_line by done. cbn [map app]. by rewrite IH.
  - intros ->. by apply file_with_no_leading_lf; [right; right|..].
Qed.

(** Outside a line of blanks the tokenizer reads each character once. *)
Lemma step_eq_once (skip : bool) (t : tokenizer) (c : ascii) :
  state t ≠ WHITESPACE_LINE → step skip t c = step_once skip t c.
Proof. intros H. unfold step, backtracks. by destruct (state t). Qed.

Ltac decide_chars :=
  repeat match goal with
    | H : ?c ≠ ?x |- context [bool_decide (?c = ?x)] =>
        rewrite (bool_decide_eq_false_2 (c = x) H)
    | H : ?c = ?x |- context [bool_decide (?c = ?x)] =>
        rewrite (bool_decide_eq_true_2 (c = x) H)
    end.

(** The tokenizer inside a quoted field, and over one wrapped line. *)
Lemma step_in_quoted (skip : bool) (l f : text) ln ls sn :
  QUOTE ∉ l → LF ∉ l →
  foldl (step skip) (mkTok IN_QUOTED_FIELD f ln ls sn) l
  = mkTok IN_QUOTED_FIELD (f ++ l) ln ls (sn ++ l).
Proof.
  revert f sn. induction l as [|c l IH]; intros f sn Hq Hlf; cbn [foldl].
  - by rewrite !app_nil_r.
  - assert (c ≠ QUOTE) as Hcq by (intros ->; apply Hq; by left).
    assert (c ≠ LF) as Hcl by (intros ->; apply Hlf; by left).
    assert (step skip (mkTok IN_QUOTED_FIELD f ln ls sn) c
            = mkTok IN_QUOTED_FIELD (f ++ [c]) ln ls (sn ++ [c])) as ->.
    { rewrite step_eq_once by done. unfold step_once, step_field, note. cbn.
      by decide_chars. }
    rewrite IH by (intros ?; first [apply Hq; by right | apply Hlf; by right]).
    by rewrite <- !app_assoc.
Qed.

Lemma step_wrapped_line (skip : bool) (eol l : text) ls :
  eol = [LF] ∨ eol = [CR; LF] → QUOTE ∉ l → LF ∉ l →
  foldl (step skip) (mkTok START_RECORD [] [] ls []) (wrap l ++ eol)
  = mkTok START_RECORD [] [] (ls ++ [[l]]) [].
Proof.
  intros Heol Hq Hlf. unfold wrap.
  replace ((QUOTE :: l ++ [QUOTE]) ++ eol) with (QUOTE :: l ++ QUOTE :: eol)
    by (cbn; by rewrite <- app_assoc).
  cbn [foldl]. change (step skip (mkTok START_RECORD [] [] ls []) QUOTE)
    with (mkTok IN_QUOTED_FIELD [] [] ls [QUOTE]).
  rewrite foldl_app, step_in_quoted by done.
  by destruct Heol as [->| ->].
Qed.

Lemma tokenizer_wrapped (skip : bool) (eol : text) (content : list text) ls :
  eol = [LF] ∨ eol = [CR; LF] →
  Forall (λ l, QUOTE ∉ l) content → Forall (λ l, LF ∉ l) content →
  foldl (step skip) (mkTok START_RECORD [] [] ls [])
        (file_with eol (map wrap content))
  = mkTok START_RECORD [] [] (ls ++ map (λ l, [l]) content) [].
Proof.
  intros Heol Hq. revert ls. induction Hq as [|l content Hl _ IH]; intros ls Hlf.
  - by rewrite app_nil_r.
  - apply Forall_cons in Hlf as [Hll Hlf].
    unfold file_with. cbn [map List.concat]. rewrite foldl_app.
    rewrite step_wrapped_line by done.
    fold (file_with eol (map wrap content)). rewrite IH by done.
    by rewrite <- app_assoc.
Qed.

Lemma tokenize_wrapped (skip : bool) (eol : text) (content : list text) :
  eol = [LF] ∨ eol = [CR; LF] →
  Forall (λ l, QUOTE ∉ l) content → Forall (λ l, LF ∉ l) content →
  tokenize skip (file_with eol (map wrap content)) = Ok (map (λ l, [l]) content).
Proof.
  intros Heol Hq Hlf. unfold tokenize, tokenizer_init.
  by rewrite tokenizer_wrapped.
Qed.

(** A header keeps its width when its names are made unique. *)
Lemma length_dedup_names (order : list nat) (st : list string * gmap string nat) :
  length (foldl dedup_name st order).1 = length st.1.
Proof.
  revert st. induction order as [|i order IH]; intros st; [done|].
  cbn [foldl]. rewrite IH. unfold dedup_name.
  destruct (st.1 !! i); [|done].
  destruct (mangle _ _ _ _ _ _) as [[col cur] counts]. cbn.
  by rewrite length_insert.
Qed.

Lemma length_header_names (header : list text) :
  length (header_names header) = length header.
Proof.
  unfold header_names. rewrite length_dedup_names. cbn.
  by rewrite length_imap, length_map.
Qed.

(** The primary parse of a wrapped file has exactly one column. *)
Lemma read_wrapped_one_column (eol l : text) (content : list text) :
  eol = [LF] ∨ eol = [CR; LF] →
  Forall (λ l, QUOTE ∉ l) (l :: content) → Forall (λ l, LF ∉ l) (l :: content) →
  ∃ df, read_csv true (file_with eol (map wrap (l :: content))) = Ok df ∧
        length (columns df) = 1.
Proof.
  intros Heol Hq Hlf. unfold read_csv. rewrite tokenize_wrapped by done.
  cbn [map mbind pyresult_bind]. unfold build_frame.
  set (width := match map (λ l0, [l0]) content with
                | [] => length [l]
                | r :: _ => length [l] `max` length r
                end).
  assert (width = 1) as Hw by (unfold width; by destruct content).
  assert (forallb (λ r : list text, length r <=? width)
            (map (λ l0, [l0]) content) = true) as ->.
  { rewrite Hw. clear. induction content as [|x content IH]; [done|]. apply IH. }
  eexists. split; [reflexivity|]. cbn [columns]. apply length_header_names.
Qed.

(** The repair path hands the unwrapped lines to the second read_csv. *)
Lemma repaired_lines (eol : text) (content : list text) :
  line_end eol →
  Forall (λ l, LF ∉ l) content → Forall (λ l, CR ∉ l) content →
  map process_line (readlines (file_with eol (map wrap content))) = content.
Proof.
  intros Heol Hlf Hcr. rewrite readlines_file_with; [|done|..].
  - rewrite !map_map. rewrite (map_ext _ id); [apply map_id|].
    intros l. rewrite wrap_line_eq. apply process_wrapped_line.
  - apply Forall_fmap. eapply Forall_impl; [exact Hlf|]. intros l Hl. cbn.
    unfold wrap. intros [?|[?|?%list_elem_of_singleton]%elem_of_app]%elem_of_cons; done.
  - apply Forall_fmap. eapply Forall_impl; [exact Hcr|]. intros l Hl. cbn.
    unfold wrap. intros [?|[?|?%list_elem_of_singleton]%elem_of_app]%elem_of_cons; done.
Qed.

Lemma unquoted_parts (content : list text) :
  Forall unquoted content →
  Forall (λ l, QUOTE ∉ l) content ∧ Forall (λ l, LF ∉ l) content ∧
  Forall (λ l, CR ∉ l) content.
Proof.
  intros H. repeat split; (eapply Forall_impl; [exact H|]); by intros l (? & ? & ?).
Qed.

Lemma ingest_wrapped (eol : text) (content : list text) :
  eol = [LF] ∨ eol = [CR; LF] →
  Forall unquoted content →
  ingest (file_with eol (map wrap content)) = read_csv false (join [LF] content).
Proof.
  intros Heol H. destruct (unquoted_parts content H) as (Hq & Hlf & Hcr).
  assert (line_end eol) as Hend by (destruct Heol; [by left|by right; left]).
  destruct content as [|l content]; [done|].
  destruct (read_wrapped_one_column eol l content Heol Hq Hlf) as (df & Hdf & Hlen).
  unfold ingest. rewrite Hdf. cbn [mbind pyresult_bind].
  rewrite bool_decide_eq_true_2 by done.
  by rewrite repaired_lines.
Qed.

(** ** Ingestion of the unwrapped file *)

Section unquoted_line.
Context (skip : bool).

(** Inside a record, on a line without quotes: the tokenizer ends in a
    field, with the fields of the line read so far. *)
Lemma step_unquoted (l : text) :
  QUOTE ∉ l → LF ∉ l → CR ∉ l → space_after_comma l = false →
  ∀ s f ln ls sn,
    (s = IN_FIELD ∨ (s = START_FIELD ∧ f = [] ∧ ∀ l', l ≠ SPACE :: l')) →
    ∃ s' f' ln',
      foldl (step skip) (mkTok s f ln ls sn) l
      = mkTok s' f' ln' ls (sn ++ l) ∧
      (s' = IN_FIELD ∨ (s' = START_FIELD ∧ f' = [])) ∧
      ln' ++ [f'] = ln ++ split_from f l.
Proof.
  induction l as [|c l IH]; intros Hq Hlf Hcr Hsp s f ln ls sn Hs.
  - exists s, f, ln. rewrite app_nil_r. split; [done|]. split; [|done].
    destruct Hs as [->|(-> & -> & _)]; auto.
  - assert (c ≠ QUOTE) as Hcq by (intros ->; apply Hq; by left).
    assert (c ≠ LF) as Hcl by (intros ->; apply Hlf; by left).
    assert (c ≠ CR) as Hcc by (intros ->; apply Hcr; by left).
    assert (QUOTE ∉ l) as Hq' by (intros ?; apply Hq; by right).
    assert (LF ∉ l) as Hlf' by (intros ?; apply Hlf; by right).
    assert (CR ∉ l) as Hcr' by (intros ?; apply Hcr; by right).
    cbn [space_after_comma] in Hsp. apply orb_false_iff in Hsp as [Hhd Hsp].
    assert (c = COMMA → ∀ l', l ≠ SPACE :: l') as Hnext.
    { intros -> l' ->. by rewrite !bool_decide_eq_true_2 in Hhd. }
    cbn [foldl split_from].
    replace (sn ++ c :: l) with ((sn ++ [c]) ++ l) by (by rewrite <- app_assoc).
    destruct Hs as [->|(-> & -> & Hns)].
    + destruct (decide (c = COMMA)) as [Hc|Hc].
      * assert (step skip (mkTok IN_FIELD f ln ls sn) c
                = mkTok START_FIELD [] (ln ++ [f]) ls (sn ++ [c])) as ->.
        { rewrite step_eq_once by done. unfold step_once, step_field, note. cbn.
          by decide_chars. }
        rewrite (bool_decide_eq_true_2 _ Hc).
        destruct (IH Hq' Hlf' Hcr' Hsp START_FIELD [] (ln ++ [f]) ls (sn ++ [c]))
          as (s' & f' & ln' & Hrun & Hs' & Hfields); [by auto|].
        exists s', f', ln'. split; [exact Hrun|]. split; [exact Hs'|].
        by rewrite Hfields, <- app_assoc.
      * assert (step skip (mkTok IN_FIELD f ln ls sn) c
                = mkTok IN_FIELD (f ++ [c]) ln ls (sn ++ [c])) as ->.
        { rewrite step_eq_once by done. unfold step_once, step_field, note. cbn.
          by decide_chars. }
        rewrite (bool_decide_eq_false_2 _ Hc).
        destruct (IH Hq' Hlf' Hcr' Hsp IN_FIELD (f ++ [c]) ln ls (sn ++ [c]))
          as (s' & f' & ln' & Hrun & Hs' & Hfields); [by auto|].
        exists s', f', ln'. split; [exact Hrun|]. split; [exact Hs'|].
        by rewrite Hfields.
    + assert (c ≠ SPACE) as Hcs by (intros ->; by apply (Hns l)).
      destruct (decide (c = COMMA)) as [Hc|Hc].
      * assert (step skip (mkTok START_FIELD [] ln ls sn) c
                = mkTok START_FIELD [] (ln ++ [[]]) ls (sn ++ [c])) as ->.
        { rewrite step_eq_once by done. unfold step_once, step_field, note. cbn.
          decide_chars. by rewrite andb_false_r. }
        rewrite (bool_decide_eq_true_2 _ Hc).
        destruct (IH Hq' Hlf' Hcr' Hsp START_FIELD [] (ln ++ [[]]) ls (sn ++ [c]))
          as (s' & f' & ln' & Hrun & Hs' & Hfields); [by auto|].
        exists s', f', ln'. split; [exact Hrun|]. split; [exact Hs'|].
        by rewrite Hfields, <- app_assoc.
      * assert (step skip (mkTok START_FIELD [] ln ls sn) c
                = mkTok IN_FIELD [c] ln ls (sn ++ [c])) as ->.
        { rewrite step_eq_once by done. unfold step_once, step_field, note. cbn.
          decide_chars. by rewrite andb_false_r. }
        rewrite (bool_decide_eq_false_2 _ Hc).
        destruct (IH Hq' Hlf' Hcr' Hsp IN_FIELD [c] ln ls (sn ++ [c]))
          as (s' & f' & ln' & Hrun & Hs' & Hfields); [by auto|].
        exists s', f', ln'. split; [exact Hrun|]. split; [exact Hs'|].
        by rewrite Hfields.
Qed.

(** A whole line, from the start of a record. *)
Lemma step_tidy_line (l : text) (ls : list (list text)) :
  unquoted l → tidy l → l ≠ [] →
  ∃ s' f' ln',
    foldl (step skip) (mkTok START_RECORD [] [] ls []) l
    = mkTok s' f' ln' ls l ∧
    (s' = IN_FIELD ∨ (s' = START_FIELD ∧ f' = [])) ∧
    ln' ++ [f'] = split_from [] l.
Proof.
  intros (Hq & Hlf & Hcr) [Hedge Hsp] Hne.
  destruct l as [|c l]; [done|].
  assert (is_space c = false) as Hc.
  { unfold edge_space in Hedge. by apply orb_false_iff in Hedge as [? _]. }
  assert (c ≠ LF) as Hcl by (by intros ->).
  assert (c ≠ CR) as Hcc by (by intros ->).
  assert (is_blank c = false) as Hcb.
  { unfold is_blank. rewrite !bool_decide_eq_false_2; [done|..]; by intros ->. }
  assert (foldl (step skip) (mkTok START_RECORD [] [] ls []) (c :: l)
          = foldl (step skip) (mkTok START_FIELD [] [] ls []) (c :: l)) as ->.
  { cbn [foldl]. f_equal. rewrite !step_eq_once by done.
    unfold step_once, start_record. cbn. decide_chars. by rewrite Hcb. }
  apply (step_unquoted (c :: l) Hq Hlf Hcr Hsp START_FIELD [] [] ls []).
  right. repeat split. intros l' [= -> _]. done.
Qed.

Lemma end_of_line (eol : text) (s : tstate) f ln ls sn :
  eol = [LF] ∨ eol = [CR; LF] →
  s = IN_FIELD ∨ (s = START_FIELD ∧ f = []) →
  foldl (step skip) (mkTok s f ln ls sn) eol
  = mkTok START_RECORD [] [] (ls ++ [ln ++ [f]]) [] ∧
  at_eof (mkTok s f ln ls sn) = Ok (ls ++ [ln ++ [f]]).
Proof. by intros [->| ->] [->|(-> & ->)]. Qed.

Lemma empty_line (eol : text) ls :
  eol = [LF] ∨ eol = [CR; LF] →
  foldl (step skip) (mkTok START_RECORD [] [] ls []) eol
  = mkTok START_RECORD [] [] ls [].
Proof. by intros [->| ->]. Qed.

Lemma tokenizer_plain_file (eol : text) (content : list text)
      (ls : list (list text)) :
  eol = [LF] ∨ eol = [CR; LF] →
  Forall unquoted content → Forall tidy content →
  foldl (step skip) (mkTok START_RECORD [] [] ls []) (file_with eol content)
  = mkTok START_RECORD [] [] (ls ++ records content) [].
Proof.
  intros Heol Hu. revert ls. induction Hu as [|l content Hl _ IH]; intros ls Ht.
  - by rewrite app_nil_r.
  - apply Forall_cons in Ht as [Htl Ht]. unfold file_with, records.
    cbn [map List.concat]. rewrite filter_cons.
    fold (file_with eol content). rewrite !foldl_app.
    destruct (decide (l ≠ [])) as [Hne|Hemp].
    + destruct (step_tidy_line l ls Hl Htl Hne)
        as (s' & f' & ln' & -> & Hs' & Hfields).
      rewrite (proj1 (end_of_line eol s' f' ln' ls l Heol Hs')).
      rewrite IH by done. rewrite Hfields. cbn [map].
      by rewrite <- app_assoc.
    + assert (l = []) as -> by (by destruct l; [|destruct Hemp]).
      cbn [foldl]. rewrite empty_line by done. by apply IH.
Qed.

Lemma tokenize_plain_file (eol : text) (content : list text) :
  eol = [LF] ∨ eol = [CR; LF] →
  Forall unquoted content → Forall tidy content →
  tokenize skip (file_with eol content) = Ok (records content).
Proof.
  intros Heol Hu Ht. unfold tokenize, tokenizer_init.
  by rewrite tokenizer_plain_file.
Qed.

Lemma tokenize_joined (content : list text) :
  Forall unquoted content → Forall tidy content →
  tokenize skip (join [LF] content) = Ok (records content).
Proof.
  intros Hu Ht. unfold tokenize, tokenizer_init.
  assert (∀ ls, at_eof (foldl (step skip) (mkTok START_RECORD [] [] ls [])
                          (join [LF] content))
                = Ok (ls ++ records content)) as H; [|by rewrite H].
  induction Hu as [|l content Hl Hu IH]; intros ls.
  - by rewrite app_nil_r.
  - apply Forall_cons in Ht as [Htl Ht]. unfold records. rewrite filter_cons.
    destruct content as [|l2 content].
    + cbn [join filter map]. destruct (decide (l ≠ [])) as [Hne|Hemp].
      * destruct (step_tidy_line l ls Hl Htl Hne)
          as (s' & f' & ln' & -> & Hs' & Hfields).
        rewrite (proj2 (end_of_line [LF] s' f' ln' ls l (or_introl eq_refl) Hs')).
        by rewrite Hfields.
      * assert (l = []) as -> by (by destruct l; [|destruct Hemp]).
        cbn. by rewrite app_nil_r.
    + change (join [LF] (l :: l2 :: content))
        with (l ++ [LF] ++ join [LF] (l2 :: content)).
      rewrite !foldl_app. destruct (decide (l ≠ [])) as [Hne|Hemp].
      * destruct (step_tidy_line l ls Hl Htl Hne)
          as (s' & f' & ln' & -> & Hs' & Hfields).
        rewrite (proj1 (end_of_line [LF] s' f' ln' ls l (or_introl eq_refl) Hs')).
        rewrite IH by done. rewrite Hfields. cbn [map].
        by rewrite <- app_assoc.
      * assert (l = []) as -> by (by destruct l; [|destruct Hemp]).
        cbn [foldl].
        change (step skip (mkTok START_RECORD [] [] ls []) LF)
          with (mkTok START_RECORD [] [] ls []).
        by apply IH.
Qed.
End unquoted_line.

Lemma process_plain_line (l : text) :
  unquoted l → tidy l → process_line (l ++ [LF]) = l.
Proof.
  intros [Hq _] [Hedge _]. unfold process_line.
  destruct l as [|c l]; [done|].
  unfold edge_space in Hedge. apply orb_false_iff in Hedge as [Hc Hlast].
  assert (strip ((c :: l) ++ [LF]) = c :: l) as ->.
  { unfold strip. cbn [app]. rewrite lstrip_not_space by done.
    change (c :: l ++ [LF]) with ((c :: l) ++ [LF]).
    rewrite rstrip_snoc_space by done.
    destruct (exists_last (l:=c :: l)) as (s & d & E); [done|].
    rewrite E in Hlast |- *. rewrite last_snoc in Hlast.
    by apply rstrip_snoc_keep. }
  cbn. rewrite bool_decide_eq_false_2; [done|].
  intros ->. apply Hq. by left.
Qed.

(** On tidy lines the program loads from the unwrapped file what the plain
    parse of its lines gives, through the primary parse or through the
    repair path. *)
Lemma ingest_plain (eol : text) (content : list text) :
  eol = [LF] ∨ eol = [CR; LF] →
  Forall unquoted content → Forall tidy content →
  ingest (file_with eol content) = read_csv false (join [LF] content).
Proof.
  intros Heol Hu Ht. unfold ingest, read_csv.
  rewrite (tokenize_plain_file true eol content) by done.
  rewrite (tokenize_joined false content) by done. cbn [mbind pyresult_bind].
  destruct (build_frame (records content)) as [df|e] eqn:E; [|done].
  cbn [mbind pyresult_bind]. case_bool_decide; [|done].
  destruct (unquoted_parts content Hu) as (_ & Hlf & Hcr).
  rewrite readlines_file_with; [|destruct Heol; [by left|by right; left]|done..].
  rewrite map_map.
  assert (map (λ l, process_line (l ++ [LF])) content = content) as ->.
  { clear E Hlf Hcr. induction Hu as [|l content Hl Hu IH]; [done|].
    apply Forall_cons in Ht as [Htl Ht]. cbn [map].
    by rewrite process_plain_line, IH. }
  by rewrite tokenize_joined.
Qed.

(** C1. The repaired parse does not give the table of the directly
    well-formed file when fields follow their commas after a space: the
    primary parse skips that space ([skipinitialspace=True], line 10), the
    re-parse of the repaired text (line 34) was not given the option and
    keeps it.  On the specification's example written with a space after
    each comma, the wrapped file loads with the flags " Yes" and " No" and
    with a blank text for every missing tag, so that no resource counts as
    untagged and every row has the full score; the plain file loads as the
    example table. *)
Theorem repaired_parse_keeps_initial_spaces :
  (df ← load (plain_file spaced_example_content); Ok (columns df)) = Ok schema ∧
  (df ← load (wrapped_file spaced_example_content); Ok (columns df)) = Ok schema ∧
  (df ← load (plain_file spaced_example_content); getitem df "Tagged")
  = Ok [Str "Yes"; Str "No"] ∧
  (df ← load (wrapped_file spaced_example_content); getitem df "Tagged")
  = Ok [Str " Yes"; Str " No"] ∧
  (df ← load (plain_file spaced_example_content); getitem df "Department")
  = Ok [Str "Eng"; NaN] ∧
  (df ← load (wrapped_file spaced_example_content); getitem df "Department")
  = Ok [Str " Eng"; Str " "] ∧
  (df ← load (plain_file spaced_example_content); percent_untagged df)
  = Ok (Fin (100 # 2)) ∧
  (df ← load (wrapped_file spaced_example_content); percent_untagged df)
  = Ok (Fin (0 # 2)) ∧
  (df ← load (plain_file spaced_example_content); TagCompletenessScore df)
  = Ok [Num 4; Num 0] ∧
  (df ← load (wrapped_file spaced_example_content); TagCompletenessScore df)
  = Ok [Num 4; Num 4] ∧
  ingest (wrapped_file spaced_example_content)
  ≠ ingest (plain_file spaced_example_content) ∧
  load (wrapped_file spaced_example_content)
  ≠ load (plain_file spaced_example_content).
Proof.
  assert ((df ← load (wrapped_file spaced_example_content); getitem df "Tagged")
          = Ok [Str " Yes"; Str " No"]) as Hw by (vm_compute; reflexivity).
  assert ((df ← load (plain_file spaced_example_content); getitem df "Tagged")
          = Ok [Str "Yes"; Str "No"]) as Hp by (vm_compute; reflexivity).
  assert (load (wrapped_file spaced_example_content)
          ≠ load (plain_file spaced_example_content)) as Hload.
  { intros E. rewrite E, Hp in Hw. discriminate Hw. }
  split; [vm_compute; reflexivity|]. split; [vm_compute; reflexivity|].
  split; [exact Hp|]. split; [exact Hw|].
  split; [vm_compute; reflexivity|]. split; [vm_compute; reflexivity|].
  split; [vm_compute; reflexivity|]. split; [vm_compute; reflexivity|].
  split; [vm_compute; reflexivity|]. split; [vm_compute; reflexivity|].
  split; [|exact Hload].
  intros E. apply Hload. unfold load. rewrite E. reflexivity.
Qed.

(** The same on two short lines: a text field keeps the space. *)
Remark wrapped_spaced_fields_differ :
  (df ← load (wrapped_file spaced_content); getitem df "b") = Ok [Str " x"] ∧
  (df ← load (plain_file spaced_content); getitem df "b") = Ok [Str "x"].
Proof. split; vm_compute; reflexivity. Qed.

(** The example file, wrapped or not, loads as the example table, with the
    costs read as the numbers 241/2 and 40. *)
Remark example_file_loads :
  (df ← load (wrapped_file example_content); Ok (columns df)) = Ok schema ∧
  (df ← load (wrapped_file example_content); getitem df "Tagged")
  = Ok [Str "Yes"; Str "No"] ∧
  (df ← load (wrapped_file example_content); getitem df "MonthlyCostUSD")
  = Ok [Num (241 # 2); Num 40] ∧
  (df ← load (wrapped_file example_content); TagCompletenessScore df)
  = Ok [Num 4; Num 0].
Proof. split; [|split; [|split]]; vm_compute; reflexivity. Qed.

(** * Further properties *)

(** ** Header normalization (line 41) *)

Lemma text_of_string_of (s : text) : text_of (string_of s) = s.
Proof. apply String.list_ascii_of_string_of_list_ascii. Qed.

(** X1. After line 41 no column name holds a double quote, and the frame
    has as many columns and as many rows as before. *)
Theorem normalized_names_quote_free (df : DataFrame) :
  (∀ c, c ∈ columns (normalize_columns df) → QUOTE ∉ text_of c) ∧
  length (columns (normalize_columns df)) = length (columns df) ∧
  len (normalize_columns df) = len df.
Proof.
  split; [|split].
  - intros c Hc. cbn in Hc. apply list_elem_of_fmap in Hc as (c0 & -> & _).
    unfold normalize_name. rewrite text_of_string_of.
    intros Hq. apply list_elem_of_filter in Hq as [Hq _]. done.
  - cbn. by rewrite length_map.
  - unfold len. cbn. by rewrite length_map.
Qed.

(** X2. When the normalized names are pairwise distinct, every column
    keeps its cells under its normalized name. *)
Theorem normalized_columns_keep_cells (df : DataFrame) (c : string) :
  NoDup (map normalize_name (columns df)) →
  c ∈ columns df →
  getitem (normalize_columns df) (normalize_name c) = getitem df c.
Proof.
  intros Hnd Hc. unfold getitem.
  rewrite decide_True by (cbn; apply list_elem_of_fmap; eauto).
  rewrite decide_True by done. f_equal. cbn. rewrite map_map.
  apply map_ext. intros r. unfold cell_at at 1.
  assert (list_to_map
            (map (λ c0, (normalize_name c0, cell_at r c0)) (columns df))
          !! normalize_name c = Some (cell_at r c)) as ->; [|done].
  apply elem_of_list_to_map.
  - by rewrite map_map.
  - apply list_elem_of_fmap. by exists c.
Qed.

Lemma normalized_columns_keep_cells_witness :
  NoDup (map normalize_name (columns padded_header_table)) ∧
  "Tagged " ∈ columns padded_header_table ∧
  getitem (normalize_columns padded_header_table) (normalize_name "Tagged ")
  = getitem padded_header_table "Tagged ".
Proof.
  assert (NoDup (map normalize_name (columns padded_header_table))) as H1
    by (refine (bool_decide_unpack _ _); vm_compute; exact I).
  assert ("Tagged " ∈ columns padded_header_table) as H2
    by (refine (bool_decide_unpack _ _); vm_compute; exact I).
  split; [exact H1|]. split; [exact H2|].
  exact (normalized_columns_keep_cells padded_header_table "Tagged " H1 H2).
Defined.

(** ** Repair of the lines (lines 17-31) *)

(** X3. For a file of wrapped lines, whichever way its lines end, the
    repair loop gives back exactly the lines that were wrapped, whatever
    they hold besides line feeds and carriage returns (commas, blanks,
    further quotes), and the text handed to the second read_csv is these
    lines joined by line feeds. *)
Theorem repair_unwraps_lines (eol : text) (content : list text) :
  line_end eol →
  Forall (λ l, (LF ∉ l) ∧ (CR ∉ l)) content →
  map process_line (readlines (file_with eol (map wrap content))) = content ∧
  join [LF] (map process_line (readlines (file_with eol (map wrap content))))
  = join [LF] content.
Proof.
  intros Heol H.
  assert (map process_line (readlines (file_with eol (map wrap content)))
          = content) as E.
  { apply repaired_lines; [done|..];
      (eapply Forall_impl; [exact H|]); by intros l [? ?]. }
  by rewrite E.
Qed.

Lemma repair_unwraps_lines_witness :
  line_end [CR; LF] ∧
  Forall (λ l, (LF ∉ l) ∧ (CR ∉ l)) spaced_content ∧
  map process_line (readlines (file_with [CR; LF] (map wrap spaced_content)))
  = spaced_content ∧
  join [LF] (map process_line
               (readlines (file_with [CR; LF] (map wrap spaced_content))))
  = join [LF] spaced_content.
Proof.
  assert (line_end [CR; LF]) as H0 by (right; left; reflexivity).
  assert (Forall (λ l, (LF ∉ l) ∧ (CR ∉ l)) spaced_content) as H
    by (refine (bool_decide_unpack _ _); vm_compute; exact I).
  split; [exact H0|]. split; [exact H|].
  exact (repair_unwraps_lines [CR; LF] spaced_content H0 H).
Defined.

(** A carriage return inside a wrapped line ends a line of its own when
    the file is read in text mode: the loop then sees three lines where
    two were wrapped, and unwraps none of the two halves. *)
Remark carriage_return_splits_wrapped_line :
  map string_of
      (map process_line
           (readlines (wrapped_file [text_of "a,b"; [ascii_of_nat 49; CR; COMMA; ascii_of_nat 50]])))
  = ["a,b"; String QUOTE "1"; String COMMA (String (ascii_of_nat 50) (String QUOTE EmptyString))].
Proof. vm_compute. reflexivity. Qed.

(** ** Files without a header (lines 8-38) *)

Lemma step_blanks (skip : bool) (l : text) ls (sn : text) :
  Forall (λ c, is_blank c = true) l →
  foldl (step skip) (mkTok WHITESPACE_LINE [] [] ls sn) l
  = mkTok WHITESPACE_LINE [] [] ls (sn ++ l).
Proof.
  intros H. revert sn. induction H as [|c l Hc _ IH]; intros sn.
  - by rewrite app_nil_r.
  - cbn [foldl].
    assert (c ≠ LF) as Hlf by (by intros ->).
    assert (c ≠ CR) as Hcr by (by intros ->).
    assert (step skip (mkTok WHITESPACE_LINE [] [] ls sn) c
            = mkTok WHITESPACE_LINE [] [] ls (sn ++ [c])) as ->.
    { unfold step, backtracks, step_once, note. cbn.
      decide_chars. rewrite Hc. cbn. by decide_chars. }
    rewrite IH. by rewrite <- app_assoc.
Qed.

Lemma step_blank_line (skip : bool) (l : text) ls :
  Forall (λ c, is_blank c = true) l →
  foldl (step skip) (mkTok START_RECORD [] [] ls []) (l ++ [LF])
  = mkTok START_RECORD [] [] ls [].
Proof.
  intros H. destruct H as [|c l Hc H]; [done|].
  cbn [app foldl].
  assert (c ≠ LF) as Hlf by (by intros ->).
  assert (c ≠ CR) as Hcr by (by intros ->).
  assert (step skip (mkTok START_RECORD [] [] ls []) c
          = mkTok WHITESPACE_LINE [] [] ls [c]) as ->.
  { unfold step, backtracks, step_once, start_record, note. cbn.
    decide_chars. by rewrite Hc. }
  rewrite foldl_app, step_blanks by done. done.
Qed.

(** X4. A file that holds nothing but empty lines and lines of spaces and
    tabs has no header: ingestion raises EmptyDataError, which the script
    does not catch. *)
Theorem blank_file_has_no_columns (content : list text) :
  Forall (Forall (λ c, is_blank c = true)) content →
  ingest (plain_file content) = Raise EmptyDataError.
Proof.
  intros H. unfold ingest, read_csv, tokenize, tokenizer_init.
  assert (∀ ls, foldl (step true) (mkTok START_RECORD [] [] ls [])
                  (plain_file content)
                = mkTok START_RECORD [] [] ls []) as ->; [|done].
  induction H as [|l content Hl _ IH]; intros ls; [done|].
  unfold plain_file. cbn [map List.concat]. fold (plain_file content).
  by rewrite foldl_app, step_blank_line, IH.
Qed.

Lemma blank_file_has_no_columns_witness :
  Forall (Forall (λ c, is_blank c = true)) [[]; [SPACE; TAB]; [SPACE]] ∧
  ingest (plain_file [[]; [SPACE; TAB]; [SPACE]]) = Raise EmptyDataError.
Proof.
  assert (Forall (Forall (λ c, is_blank c = true)) [[]; [SPACE; TAB]; [SPACE]])
    as H by (refine (bool_decide_unpack _ _); vm_compute; exact I).
  split; [exact H | exact (blank_file_has_no_columns _ H)].
Defined.

(** ** Missing tags and scores (lines 93-99) *)

Lemma length_filter_cons {A} (P : A → Prop) `{∀ x, Decision (P x)} x (l : list A) :
  length (filter P (x :: l)) = (if decide (P x) then 1 else 0) + length (filter P l).
Proof. rewrite filter_cons. by destruct (decide (P x)). Qed.

Lemma row_score_and_missing (r : Row) :
  count_notnull (map (cell_at r) tag_fields)
  + ((if decide (notnull (cell_at r "Department") = false) then 1 else 0)
     + (if decide (notnull (cell_at r "Project") = false) then 1 else 0)
     + (if decide (notnull (cell_at r "Owner") = false) then 1 else 0)
     + (if decide (notnull (cell_at r "CostCenter") = false) then 1 else 0))
  = 4.
Proof.
  unfold count_notnull. cbn [map tag_fields]. rewrite !length_filter_cons.
  destruct (notnull (cell_at r "Department")),
           (notnull (cell_at r "Project")),
           (notnull (cell_at r "Owner")),
           (notnull (cell_at r "CostCenter")); done.
Qed.

(** X5. The completeness scores of all rows and the missing-tag counts of
    the four tag fields add up to four times the number of rows: every tag
    cell is counted once, as present in its row's score or as missing in its
    field's count. *)
Theorem scores_and_missing_add_up (df : DataFrame) :
  tag_fields ⊆ columns df →
  ∃ ns missing,
    TagCompletenessScore df = Ok (map (λ n, Num (Q_of_nat n)) ns) ∧
    missing_by_tag df = Ok missing ∧
    map fst missing = tag_fields ∧
    sum_list ns + sum_list (map snd missing) = 4 * len df.
Proof.
  intros Hcols.
  exists (map (λ r : Row, count_notnull (map (cell_at r) tag_fields)) (rows df)).
  eexists. split; [|split; [|split]].
  - unfold TagCompletenessScore. rewrite getitems_ok by done. cbn.
    by rewrite !map_map.
  - unfold missing_by_tag. rewrite getitems_ok by done. reflexivity.
  - reflexivity.
  - unfold len. cbn [map tag_fields snd sum_list sum_list_with].
    induction (rows df) as [|r l IH]; [done|].
    rewrite !length_filter_cons. cbn [map sum_list sum_list_with length].
    pose proof (row_score_and_missing r) as Hr.
    cbn [map tag_fields] in Hr. unfold id in *. lia.
Qed.

Lemma scores_and_missing_add_up_witness :
  tag_fields ⊆ columns example_table ∧
  ∃ ns missing,
    TagCompletenessScore example_table = Ok (map (λ n, Num (Q_of_nat n)) ns) ∧
    missing_by_tag example_table = Ok missing ∧
    map fst missing = tag_fields ∧
    sum_list ns + sum_list (map snd missing) = 4 * len example_table.
Proof.
  assert (tag_fields ⊆ columns example_table) as H
    by (refine (bool_decide_unpack _ _); vm_compute; exact I).
  split; [exact H | exact (scores_and_missing_add_up example_table H)].
Defined.

(** ** Percentage of untagged resources (lines 59-63) *)

Lemma Q_of_nat_nonneg (n : nat) : Qle 0 (Q_of_nat n).
Proof.
  unfold Q_of_nat. change 0%Q with (inject_Z 0). rewrite <- Zle_Qle. lia.
Qed.

Lemma Q_of_nat_le (n m : nat) : n ≤ m → Qle (Q_of_nat n) (Q_of_nat m).
Proof. intros H. unfold Q_of_nat. rewrite <- Zle_Qle. lia. Qed.

Lemma Q_of_nat_pos (n : nat) : 0 < n → Qlt 0 (Q_of_nat n).
Proof.
  intros H. unfold Q_of_nat. change 0%Q with (inject_Z 0). rewrite <- Zlt_Qlt. lia.
Qed.

(** X6. On a table with at least one row the percentage of untagged
    resources is a finite number: 100 times the share of the rows flagged
    "No", between 0 and 100. *)
Theorem percent_untagged_nonempty (df : DataFrame) :
  "Tagged" ∈ columns df → rows df ≠ [] →
  ∃ q,
    percent_untagged df = Ok (Fin q) ∧
    Qeq q (100 * Q_of_nat (length (filter (λ r, cell_at r "Tagged" = Str "No")
                                     (rows df)))
           / Q_of_nat (len df)) ∧
    Qle 0 q ∧ Qle q 100.
Proof.
  intros Hflag Hrows.
  set (n := length (filter (λ r, cell_at r "Tagged" = Str "No") (rows df))).
  assert (0 < len df) as Hlen.
  { unfold len. destruct (rows df); [done|cbn; lia]. }
  assert (n ≤ len df) as Hn by apply length_filter.
  pose proof (Q_of_nat_pos _ Hlen) as Hpos.
  assert (Qeq_bool (Q_of_nat (len df)) 0 = false) as Hnz.
  { destruct (Qeq_bool (Q_of_nat (len df)) 0) eqn:E; [|done].
    apply Qeq_bool_eq in E. rewrite E in Hpos. by apply Qlt_irrefl in Hpos. }
  assert (percent_untagged df
          = Ok (Fin (Qmult (Qdiv (Q_of_nat n) (Q_of_nat (len df))) 100))) as Hp.
  { unfold percent_untagged, tagged_counts, getitem.
    rewrite decide_True by done. cbn [mbind pyresult_bind].
    pose proof (value_counts_lookup (map (λ r, cell_at r "Tagged") (rows df))
                  (Str "No") eq_refl) as Hc.
    assert (length (filter (λ c, c = Str "No")
                      (map (λ r, cell_at r "Tagged") (rows df))) = n) as Hn'.
    { unfold n. clear. induction (rows df) as [|r l IH]; [done|]. cbn [map].
      rewrite !filter_cons.
      destruct (decide (cell_at r "Tagged" = Str "No")); cbn; by rewrite IH. }
    rewrite Hn' in Hc. unfold get_or_0.
    destruct (value_counts _ !! Str "No") as [m|]; cbn in Hc; subst.
    - unfold truediv. cbn [scalar_val]. rewrite Hnz. reflexivity.
    - rewrite <- Hc. unfold truediv. rewrite Hnz. reflexivity. }
  eexists. split; [exact Hp|].
  assert (Qle (Q_of_nat n / Q_of_nat (len df)) 1) as Hle1.
  { apply Qle_shift_div_r; [done|]. rewrite Qmult_1_l. by apply Q_of_nat_le. }
  assert (Qle 0 (Q_of_nat n / Q_of_nat (len df))) as Hge0.
  { apply Qle_shift_div_l; [done|]. rewrite Qmult_0_l. apply Q_of_nat_nonneg. }
  split; [|split].
  - unfold Qdiv. ring.
  - apply Qmult_le_0_compat; [done|]. done.
  - change 100%Q with (1 * 100)%Q at 2. by apply Qmult_le_compat_r.
Qed.

Lemma percent_untagged_nonempty_witness :
  "Tagged" ∈ columns example_table ∧ rows example_table ≠ [] ∧
  ∃ q,
    percent_untagged example_table = Ok (Fin q) ∧
    Qeq q (100 * Q_of_nat (length (filter (λ r, cell_at r "Tagged" = Str "No")
                                     (rows example_table)))
           / Q_of_nat (len example_table)) ∧
    Qle 0 q ∧ Qle q 100.
Proof.
  assert ("Tagged" ∈ columns example_table) as H1
    by (refine (bool_decide_unpack _ _); vm_compute; exact I).
  assert (rows example_table ≠ []) as H2 by (intros E; discriminate E).
  split; [exact H1|]. split; [exact H2|].
  exact (percent_untagged_nonempty example_table H1 H2).
Defined.

(** ** What a group-by holds (lines 67, 77, 82, 122, 127) *)

Lemma group_fold_lookup (k v : string) (key : cell) (l : list Row)
      (m : gmap cell Q) :
  notnull key = true →
  foldl (row_add k v) m l !! key
  = match filter (λ r, cell_at r k = key) l with
    | [] => m !! key
    | g => Some (foldl add_skipna (default 0%Q (m !! key))
                   (map (λ r, float_of (cell_at r v)) g))
    end.
Proof.
  intros Hkey. revert m. induction l as [|r l IH]; intros m; [done|].
  cbn [foldl]. rewrite IH, filter_cons. unfold row_add, group_add. cbn [fst snd].
  destruct (decide (cell_at r k = key)) as [->|Hne].
  - rewrite Hkey, lookup_insert_eq. cbn [default map foldl].
    by destruct (filter _ l).
  - destruct (notnull (cell_at r k)); [|done].
    by rewrite lookup_insert_ne.
Qed.

Lemma group_fold_null (k v : string) (l : list Row) (m : gmap cell Q) :
  foldl (row_add k v) m l !! NaN = m !! NaN.
Proof.
  revert m. induction l as [|r l IH]; intros m; [done|].
  cbn [foldl]. rewrite IH. unfold row_add, group_add. cbn [fst snd].
  destruct (cell_at r k) eqn:E; cbn; [done|by rewrite lookup_insert_ne..].
Qed.

(** X7. A group-by sum over a numeric column has no entry for the null
    key, and for any other key it has an entry exactly when some row holds
    that key: the sum, nulls skipped, of the values of these rows in row
    order. *)
Theorem groupby_sum_lookup (df : DataFrame) (k v : string) :
  k ∈ columns df → v ∈ columns df →
  Forall (λ r, no_text (cell_at r v) = true) (rows df) →
  ∃ sums,
    groupby_sum df k v = Ok sums ∧
    sums !! NaN = None ∧
    ∀ key, notnull key = true →
      sums !! key
      = match filter (λ r, cell_at r k = key) (rows df) with
        | [] => None
        | g => Some (nansum (map (λ r, float_of (cell_at r v)) g))
        end.
Proof.
  intros Hk Hv Hnum. rewrite groupby_sum_eq, !decide_True by done.
  assert (forallb (λ r, no_text (cell_at r v)) (rows df) = true) as ->.
  { apply forallb_forall. intros r Hr. rewrite Forall_forall in Hnum.
    apply Hnum. by apply list_elem_of_In. }
  eexists. split; [reflexivity|]. split.
  - by rewrite group_fold_null.
  - intros key Hkey. by rewrite group_fold_lookup.
Qed.

Lemma groupby_sum_lookup_witness :
  "Tagged" ∈ columns example_table ∧ "MonthlyCostUSD" ∈ columns example_table ∧
  Forall (λ r, no_text (cell_at r "MonthlyCostUSD") = true) (rows example_table) ∧
  ∃ sums,
    groupby_sum example_table "Tagged" "MonthlyCostUSD" = Ok sums ∧
    sums !! NaN = None ∧
    ∀ key, notnull key = true →
      sums !! key
      = match filter (λ r, cell_at r "Tagged" = key) (rows example_table) with
        | [] => None
        | g => Some (nansum (map (λ r, float_of (cell_at r "MonthlyCostUSD")) g))
        end.
Proof.
  assert ("Tagged" ∈ columns example_table) as H1
    by (refine (bool_decide_unpack _ _); vm_compute; exact I).
  assert ("MonthlyCostUSD" ∈ columns example_table) as H2
    by (refine (bool_decide_unpack _ _); vm_compute; exact I).
  assert (Forall (λ r, no_text (cell_at r "MonthlyCostUSD") = true)
            (rows example_table)) as H3
    by (refine (bool_decide_unpack _ _); vm_compute; exact I).
  split; [exact H1|]. split; [exact H2|]. split; [exact H3|].
  exact (groupby_sum_lookup example_table "Tagged" "MonthlyCostUSD" H1 H2 H3).
Defined.

(** ** Untagged resources (lines 59, 104) *)

(** X8. The list of untagged resources holds the identifier and cost of the
    rows flagged "No", in row order, and has as many entries as the "No"
    count of line 59 says (none when there is no such count). *)
Theorem untagged_resources_match_count (df : DataFrame) :
  "Tagged" ∈ columns df → "ResourceID" ∈ columns df →
  "MonthlyCostUSD" ∈ columns df →
  ∃ res counts,
    untagged_resources df = Ok res ∧
    tagged_counts df = Ok counts ∧
    res = map (λ r, (cell_at r "ResourceID", cell_at r "MonthlyCostUSD"))
              (filter (λ r, cell_at r "Tagged" = Str "No") (rows df)) ∧
    length res = default 0 (counts !! Str "No").
Proof.
  intros Hflag Hid Hcost.
  set (untagged := filter (λ r, cell_at r "Tagged" = Str "No") (rows df)).
  assert (untagged_resources df
          = Ok (map (λ r, (cell_at r "ResourceID", cell_at r "MonthlyCostUSD"))
                    untagged)) as Hres.
  { unfold untagged_resources. rewrite where_eq_ok by done.
    cbn [mbind pyresult_bind]. unfold getitem. cbn [columns rows].
    rewrite !decide_True by done. cbn [mbind pyresult_bind]. f_equal.
    fold untagged. clear. induction untagged as [|r l IH]; [done|].
    cbn. by rewrite <- IH. }
  eexists _, _. split; [exact Hres|].
  split; [by unfold tagged_counts, getitem; rewrite decide_True|].
  split; [done|]. rewrite length_map.
  rewrite value_counts_lookup by done. unfold untagged. clear.
  induction (rows df) as [|r l IH]; [done|]. cbn [map].
  rewrite !filter_cons.
  destruct (decide (cell_at r "Tagged" = Str "No")); cbn; by rewrite IH.
Qed.

Lemma untagged_resources_match_count_witness :
  "Tagged" ∈ columns example_table ∧ "ResourceID" ∈ columns example_table ∧
  "MonthlyCostUSD" ∈ columns example_table ∧
  ∃ res counts,
    untagged_resources example_table = Ok res ∧
    tagged_counts example_table = Ok counts ∧
    res = map (λ r, (cell_at r "ResourceID", cell_at r "MonthlyCostUSD"))
              (filter (λ r, cell_at r "Tagged" = Str "No") (rows example_table)) ∧
    length res = default 0 (counts !! Str "No").
Proof.
  assert ("Tagged" ∈ columns example_table) as H1
    by (refine (bool_decide_unpack _ _); vm_compute; exact I).
  assert ("ResourceID" ∈ columns example_table) as H2
    by (refine (bool_decide_unpack _ _); vm_compute; exact I).
  assert ("MonthlyCostUSD" ∈ columns example_table) as H3
    by (refine (bool_decide_unpack _ _); vm_compute; exact I).
  split; [exact H1|]. split; [exact H2|]. split; [exact H3|].
  exact (untagged_resources_match_count example_table H1 H2 H3).
Defined.

(** ** Arg-max of a non-empty group-by (lines 77-84) *)

Lemma better_ge (kv best : cell * Q) :
  better kv best = true → Qle best.2 kv.2.
Proof.
  unfold better. intros [H|[H _]%andb_true_iff]%orb_true_iff.
  - apply negb_true_iff in H. destruct (Qlt_le_dec best.2 kv.2) as [Hlt|Hle].
    + by apply Qlt_le_weak.
    + apply Qle_bool_iff in Hle. congruence.
  - apply Qeq_bool_eq in H. rewrite H. apply Qle_refl.
Qed.

Lemma not_better_le (kv best : cell * Q) :
  better kv best = false → Qle kv.2 best.2.
Proof.
  unfold better. intros [H _]%orb_false_iff.
  apply negb_false_iff in H. by apply Qle_bool_iff.
Qed.

Lemma best_of_fold (l : list (cell * Q)) (kv0 : cell * Q) :
  let best := foldl (λ best kv, if better kv best then kv else best) kv0 l in
  (best = kv0 ∨ best ∈ l) ∧ Qle kv0.2 best.2 ∧ ∀ kv, kv ∈ l → Qle kv.2 best.2.
Proof.
  revert kv0. induction l as [|kv l IH]; intros kv0; cbn.
  - split; [by left|]. split; [apply Qle_refl|]. intros kv Hkv.
    by apply elem_of_nil in Hkv.
  - destruct (better kv kv0) eqn:E.
    + destruct (IH kv) as ([->|Hin] & Hge & Hall).
      * split; [right; by left|]. apply better_ge in E.
        split; [done|]. intros x [->|Hx]%elem_of_cons; [apply Qle_refl|].
        by apply Hall.
      * split; [right; by right|]. apply better_ge in E.
        split; [by eapply Qle_trans|].
        intros x [->|Hx]%elem_of_cons; [done|]. by apply Hall.
    + destruct (IH kv0) as (Hin & Hge & Hall).
      split; [destruct Hin as [->|Hin]; [by left|right; by right]|].
      split; [done|].
      intros x [->|Hx]%elem_of_cons; [|by apply Hall].
      apply not_better_le in E. by eapply Qle_trans.
Qed.

Lemma idxmax_maximal (s : gmap cell Q) :
  s ≠ ∅ →
  ∃ v, s !! idxmax s = Some v ∧ ∀ k' v', s !! k' = Some v' → Qle v' v.
Proof.
  intros Hne. unfold idxmax.
  destruct (map_to_list s) as [|kv0 l] eqn:E.
  { by apply map_to_list_empty_iff in E. }
  pose proof (best_of_fold l kv0) as (Hin & Hge & Hall). cbn zeta in *.
  set (best := foldl _ kv0 l) in *.
  assert (best ∈ map_to_list s) as Hbest.
  { rewrite E. destruct Hin as [->|Hin]; [by left|by right]. }
  exists best.2. split.
  - apply elem_of_map_to_list. by destruct best.
  - intros k' v' Hk'. apply elem_of_map_to_list in Hk'. rewrite E in Hk'.
    apply elem_of_cons in Hk' as [<-|Hk']; [done|]. by apply (Hall (k', v')).
Qed.

(** X9. When the group-by of the project costs is not empty, the project
    line 83 names is one of its keys and no project has a higher sum; the
    same holds for the department line 78 names among the untagged
    department costs. *)
Theorem argmax_has_highest_sum (df : DataFrame) :
  (∀ s, project_cost df = Ok s → s ≠ ∅ →
        ∃ p v, project_most_cost df = Ok p ∧ s !! p = Some v ∧
               ∀ k' v', s !! k' = Some v' → Qle v' v) ∧
  (∀ s, untagged_dept_cost df = Ok s → s ≠ ∅ →
        ∃ d v, dept_most_untagged_cost df = Ok d ∧ s !! d = Some v ∧
               ∀ k' v', s !! k' = Some v' → Qle v' v).
Proof.
  split; intros s Hs Hne;
    destruct (idxmax_maximal s Hne) as (v & Hv & Hmax);
    exists (idxmax s), v.
  - unfold project_most_cost, idxmax_or_na. rewrite Hs. cbn.
    by rewrite bool_decide_eq_false_2.
  - unfold dept_most_untagged_cost, idxmax_or_na. rewrite Hs. cbn.
    by rewrite bool_decide_eq_false_2.
Qed.

Lemma argmax_has_highest_sum_witness :
  project_cost example_table = Ok {[Str "ProjA" := Qplus 0 120.5]} ∧
  ({[Str "ProjA" := Qplus 0 120.5]} : gmap cell Q) ≠ ∅ ∧
  ∃ p v, project_most_cost example_table = Ok p ∧
         ({[Str "ProjA" := Qplus 0 120.5]} : gmap cell Q) !! p = Some v ∧
         ∀ k' v', ({[Str "ProjA" := Qplus 0 120.5]} : gmap cell Q) !! k' = Some v' →
                  Qle v' v.
Proof.
  assert (project_cost example_table = Ok {[Str "ProjA" := Qplus 0 120.5]})
    as Hs by (vm_compute; reflexivity).
  assert (({[Str "ProjA" := Qplus 0 120.5]} : gmap cell Q) ≠ ∅) as Hne
    by apply insert_non_empty.
  split; [exact Hs|]. split; [exact Hne|].
  exact (proj1 (argmax_has_highest_sum example_table) _ Hs Hne).
Defined.

(** ** Enrichment, again (line 93) *)

(** X10. Enriching an enriched table changes nothing: the scores are
    recomputed from the same tag cells and written over themselves. *)
Theorem enrich_idempotent (df : DataFrame) :
  tag_fields ⊆ columns df →
  ∃ enriched, enrich df = Ok enriched ∧ enrich enriched = Ok enriched.
Proof.
  intros Htags.
  set (score := λ r : Row, score_cell (map (cell_at r) tag_fields)).
  assert (∀ d, tag_fields ⊆ columns d →
               enrich d = Ok (setitem d "TagCompletenessScore" (map score (rows d))))
    as Hen.
  { intros d Hd. unfold enrich, TagCompletenessScore. rewrite getitems_ok by done.
    cbn. by rewrite map_map. }
  eexists. split; [by apply Hen|].
  set (d1 := setitem df "TagCompletenessScore" (map score (rows df))).
  assert (tag_fields ⊆ columns d1) as Htags1.
  { intros f Hf. unfold d1, setitem. cbn. case_decide; [by apply Htags|].
    apply elem_of_app. left. by apply Htags. }
  rewrite Hen by done. f_equal.
  assert (rows d1 = map (λ r, <["TagCompletenessScore" := score r]> r) (rows df))
    as Hrows by apply setitem_rows.
  unfold setitem at 1.
  rewrite decide_True by apply setitem_columns_mem.
  destruct d1 as [cols1 rows1] eqn:Ed1. cbn [columns rows] in *. f_equal.
  rewrite Hrows. clear. induction (rows df) as [|r l IH]; [done|].
  cbn [map zip_with]. rewrite IH. f_equal.
  assert (score (<["TagCompletenessScore" := score r]> r) = score r) as ->.
  { unfold score. cbn [map tag_fields]. by rewrite !cell_at_insert_ne. }
  apply insert_insert_eq.
Qed.

Lemma enrich_idempotent_witness :
  tag_fields ⊆ columns example_table ∧
  ∃ enriched, enrich example_table = Ok enriched ∧ enrich enriched = Ok enriched.
Proof.
  assert (tag_fields ⊆ columns example_table) as H
    by (refine (bool_decide_unpack _ _); vm_compute; exact I).
  split; [exact H | exact (enrich_idempotent example_table H)].
Defined.

(** ** Sorting *)

Section stable_sort.
Context {A : Type} (leb : A → A → bool).
Context (leb_total : ∀ x y, leb x y = false → leb y x = true).
Context (leb_trans : ∀ x y z, leb x y = true → leb y z = true → leb x z = true).

Lemma insert_sorted_Permutation (x : A) (l : list A) :
  insert_sorted leb x l ≡ₚ x :: l.
Proof.
  induction l as [|y l IH]; [done|]. cbn. destruct (leb x y); [done|].
  rewrite IH. apply Permutation_swap.
Qed.

Lemma stable_sort_Permutation (l : list A) : stable_sort leb l ≡ₚ l.
Proof.
  induction l as [|x l IH]; [done|]. cbn.
  by rewrite insert_sorted_Permutation, IH.
Qed.

Lemma insert_sorted_StronglySorted (x : A) (l : list A) :
  StronglySorted (λ a b, leb a b = true) l →
  StronglySorted (λ a b, leb a b = true) (insert_sorted leb x l).
Proof.
  induction 1 as [|y l Hl IH Hy]; cbn.
  - repeat constructor.
  - destruct (leb x y) eqn:E.
    + constructor; [by constructor|]. constructor; [done|].
      eapply Forall_impl; [exact Hy|]. intros z Hz. by eapply leb_trans.
    + constructor; [done|]. apply Forall_forall. intros z Hz.
      rewrite insert_sorted_Permutation in Hz.
      apply elem_of_cons in Hz as [->|Hz]; [by apply leb_total|].
      rewrite Forall_forall in Hy. by apply Hy.
Qed.

Lemma stable_sort_StronglySorted (l : list A) :
  StronglySorted (λ a b, leb a b = true) (stable_sort leb l).
Proof.
  induction l as [|x l IH]; [constructor|]. cbn.
  by apply insert_sorted_StronglySorted.
Qed.
End stable_sort.

Lemma Qle_bool_total (p q : Q) : Qle_bool p q = false → Qle_bool q p = true.
Proof.
  intros H. apply Qle_bool_iff. destruct (Qlt_le_dec q p) as [Hlt|Hle].
  - by apply Qlt_le_weak.
  - apply Qle_bool_iff in Hle. congruence.
Qed.

Lemma Qle_bool_trans (p q r : Q) :
  Qle_bool p q = true → Qle_bool q r = true → Qle_bool p r = true.
Proof. rewrite !Qle_bool_iff. apply Qle_trans. Qed.

(** ** Lowest completeness (lines 93-96) *)

(** X11. The table of line 96 holds the five rows of the enriched table
    with the lowest scores, or all rows when there are fewer: its rows are
    rows of the enriched table, in ascending order of score, and no row left
    out has a lower score than a row taken. *)
Theorem lowest_completeness_rows (df : DataFrame) :
  tag_fields ⊆ columns df →
  ∃ enriched low rest,
    enrich df = Ok enriched ∧
    lowest_completeness df = Ok low ∧
    len low = min 5 (len df) ∧
    rows enriched ≡ₚ rows low ++ rest ∧
    StronglySorted (λ r1 r2, Qle (sort_key "TagCompletenessScore" r1)
                                 (sort_key "TagCompletenessScore" r2)) (rows low) ∧
    ∀ r r', r ∈ rows low → r' ∈ rest →
            Qle (sort_key "TagCompletenessScore" r)
                (sort_key "TagCompletenessScore" r').
Proof.
  intros Htags.
  set (score := λ r : Row, score_cell (map (cell_at r) tag_fields)).
  set (enriched := setitem df "TagCompletenessScore" (map score (rows df))).
  assert (enrich df = Ok enriched) as Hen.
  { unfold enrich, TagCompletenessScore. rewrite getitems_ok by done. cbn.
    by rewrite map_map. }
  assert (rows enriched
          = map (λ r, <["TagCompletenessScore" := score r]> r) (rows df)) as Hrows
    by apply setitem_rows.
  assert (Forall (λ r, ∃ q, cell_at r "TagCompletenessScore" = Num q)
            (rows enriched)) as Hnum.
  { rewrite Hrows. apply Forall_fmap, Forall_forall. intros r _.
    unfold compose. rewrite cell_at_insert. by eexists. }
  set (leb := λ r1 r2 : Row,
         Qle_bool (sort_key "TagCompletenessScore" r1)
                  (sort_key "TagCompletenessScore" r2)).
  set (sorted_rows := stable_sort leb (rows enriched)).
  assert (lowest_completeness df
          = Ok (mkDF (columns enriched) (take 5 sorted_rows))) as Hlow.
  { unfold lowest_completeness. rewrite Hen. cbn [mbind pyresult_bind].
    unfold nsmallest, getitem.
    rewrite decide_True by apply setitem_columns_mem. cbn [mbind pyresult_bind].
    rewrite values_eq.
    assert (forallb no_text (map (λ r, cell_at r "TagCompletenessScore")
                               (rows enriched)) = true) as ->.
    { apply forallb_forall. intros c Hc. apply list_elem_of_In in Hc.
      apply list_elem_of_fmap in Hc as (r & -> & Hr).
      rewrite Forall_forall in Hnum. by destruct (Hnum r Hr) as [q ->]. }
    cbn [mbind pyresult_bind].
    assert (filter (λ r, notnull (cell_at r "TagCompletenessScore") = true)
              (rows enriched) = rows enriched) as ->; [|done].
    clear -Hnum. induction Hnum as [|r l [q Hr] _ IH]; [done|].
    rewrite filter_cons, decide_True by (by rewrite Hr). by rewrite IH. }
  assert (StronglySorted (λ a b, leb a b = true) sorted_rows) as Hsorted.
  { apply stable_sort_StronglySorted.
    - intros x y. apply Qle_bool_total.
    - intros x y z. apply Qle_bool_trans. }
  rewrite <- (take_drop 5 sorted_rows) in Hsorted.
  exists enriched, (mkDF (columns enriched) (take 5 sorted_rows)),
         (drop 5 sorted_rows).
  split; [done|]. split; [done|]. split; [|split; [|split]].
  - unfold len. cbn [rows]. rewrite length_take. unfold sorted_rows.
    rewrite (Permutation_length (stable_sort_Permutation leb (rows enriched))).
    by rewrite Hrows, length_map.
  - cbn [rows]. rewrite take_drop. unfold sorted_rows.
    by rewrite stable_sort_Permutation.
  - cbn [rows]. apply StronglySorted_app_1_l in Hsorted.
    clear -Hsorted. induction Hsorted as [|r l Hl IH Hr]; constructor; [done|].
    eapply Forall_impl; [exact Hr|]. intros r' Hr'. by apply Qle_bool_iff.
  - intros r r' Hr Hr'. cbn [rows] in Hr. apply Qle_bool_iff.
    by apply (StronglySorted_app_1_elem_of _ _ _ _ _ Hsorted).
Qed.

Lemma lowest_completeness_rows_witness :
  tag_fields ⊆ columns example_table ∧
  ∃ enriched low rest,
    enrich example_table = Ok enriched ∧
    lowest_completeness example_table = Ok low ∧
    len low = min 5 (len example_table) ∧
    rows enriched ≡ₚ rows low ++ rest ∧
    StronglySorted (λ r1 r2, Qle (sort_key "TagCompletenessScore" r1)
                                 (sort_key "TagCompletenessScore" r2)) (rows low) ∧
    ∀ r r', r ∈ rows low → r' ∈ rest →
            Qle (sort_key "TagCompletenessScore" r)
                (sort_key "TagCompletenessScore" r').
Proof.
  assert (tag_fields ⊆ columns example_table) as H
    by (refine (bool_decide_unpack _ _); vm_compute; exact I).
  split; [exact H | exact (lowest_completeness_rows example_table H)].
Defined.

(** ** Filter options (lines 133-135) *)

Lemma elem_of_unique (s : list cell) (v : cell) : v ∈ unique s ↔ v ∈ s.
Proof.
  induction s as [|c s IH]; [done|]. cbn [unique].
  rewrite !elem_of_cons, list_elem_of_filter, IH.
  destruct (decide (v = c)) as [->|Hne]; [by split; left|].
  split; [intros [?|[_ ?]]; [done|by right]|intros [?|?]; [done|right; done]].
Qed.

Lemma NoDup_unique (s : list cell) : NoDup (unique s).
Proof.
  induction s as [|c s IH]; cbn [unique]; constructor.
  - rewrite list_elem_of_filter. by intros [Hne _].
  - by apply NoDup_filter.
Qed.

Lemma cell_leb_total (a b : cell) : cell_leb a b = false → cell_leb b a = true.
Proof.
  destruct a as [|s|p], b as [|t|q]; cbn; try done.
  - intros H. destruct (String.leb_total s t) as [E|E]; congruence.
  - apply Qle_bool_total.
Qed.

Lemma cell_leb_trans (a b c : cell) :
  is_text a = is_text b → is_text b = is_text c →
  is_number a = is_number b → is_number b = is_number c →
  cell_leb a b = true → cell_leb b c = true → cell_leb a c = true.
Proof.
  destruct a as [|s|p], b as [|t|q], c as [|u|r]; cbn; try done.
  - intros _ _ _ _ H1 H2.
    pose proof (@transitivity _ String.le _ s t u) as Htr.
    unfold String.le in Htr. apply Is_true_true. apply Htr; by apply Is_true_true.
  - intros _ _ _ _. apply Qle_bool_trans.
Qed.

(** Sortedness of an insertion into a list of one kind of cells. *)
Lemma insert_cell_sorted (x : cell) (l : list cell) :
  (Forall (λ c, is_text c = true) (x :: l) ∨
   Forall (λ c, is_number c = true) (x :: l)) →
  StronglySorted (λ a b, cell_leb a b = true) l →
  StronglySorted (λ a b, cell_leb a b = true) (insert_sorted cell_leb x l).
Proof.
  intros Hkind. induction 1 as [|y l Hl IH Hy]; cbn.
  - repeat constructor.
  - assert (∀ a b, a ∈ x :: y :: l → b ∈ x :: y :: l →
                   is_text a = is_text b ∧ is_number a = is_number b) as Hsame.
    { intros a b Ha Hb. destruct Hkind as [Hk|Hk]; rewrite Forall_forall in Hk;
        pose proof (Hk a Ha); pose proof (Hk b Hb);
        destruct a, b; cbn in *; done. }
    destruct (cell_leb x y) eqn:E.
    + constructor; [by constructor|]. constructor; [done|].
      apply Forall_forall. intros z Hz. rewrite Forall_forall in Hy.
      assert (x ∈ x :: y :: l) as Hx by by left.
      assert (y ∈ x :: y :: l) as Hy' by (right; by left).
      assert (z ∈ x :: y :: l) as Hz' by (do 2 right; done).
      destruct (Hsame x y Hx Hy'), (Hsame y z Hy' Hz').
      by apply (cell_leb_trans x y z); [..|apply Hy].
    + constructor.
      * apply IH. destruct Hkind as [Hk|Hk]; [left|right];
          apply Forall_cons in Hk as [? Hk]; apply Forall_cons in Hk as [? Hk];
          by constructor.
      * apply Forall_forall. intros z Hz.
        rewrite insert_sorted_Permutation in Hz.
        apply elem_of_cons in Hz as [->|Hz]; [by apply cell_leb_total|].
        rewrite Forall_forall in Hy. by apply Hy.
Qed.

Lemma stable_sort_cells_sorted (l : list cell) :
  (Forall (λ c, is_text c = true) l ∨ Forall (λ c, is_number c = true) l) →
  StronglySorted (λ a b, cell_leb a b = true) (stable_sort cell_leb l).
Proof.
  induction l as [|x l IH]; intros Hkind; [constructor|].
  change (stable_sort cell_leb (x :: l))
    with (insert_sorted cell_leb x (stable_sort cell_leb l)).
  apply insert_cell_sorted.
  - destruct Hkind as [Hk|Hk]; [left|right];
      apply Forall_cons in Hk as [? Hk]; constructor; try done;
      by rewrite stable_sort_Permutation.
  - apply IH. destruct Hkind as [Hk|Hk]; [left|right];
      by apply Forall_cons in Hk as [? Hk].
Qed.

Lemma options_spec (col : string) (df : DataFrame) (opts : list cell) :
  options col df = Ok opts →
  col ∈ columns df ∧
  opts ≡ₚ unique (dropna (map (λ r, cell_at r col) (rows df))) ∧
  StronglySorted (λ a b, cell_leb a b = true) opts.
Proof.
  unfold options, getitem. intros H.
  destruct (decide (col ∈ columns df)) as [Hc|]; [|done].
  cbn [mbind pyresult_bind] in H. unfold sorted in H.
  destruct (forallb is_text _ || forallb is_number _) eqn:E; [|done].
  injection H as <-. split; [done|]. split; [apply stable_sort_Permutation|].
  apply stable_sort_cells_sorted.
  apply orb_true_iff in E as [E|E]; [left|right];
    apply Forall_forall; intros c Hc'; rewrite forallb_forall in E;
    apply E; by apply list_elem_of_In.
Qed.

(** X12. The values offered for a column are its distinct non-null values:
    each value of the column that is not null is offered once, nothing else
    is, and the values are in ascending order. *)
Theorem options_distinct_sorted (col : string) (df : DataFrame)
    (opts : list cell) :
  options col df = Ok opts →
  NoDup opts ∧
  StronglySorted (λ a b, cell_leb a b = true) opts ∧
  ∀ v, v ∈ opts ↔ notnull v = true ∧ ∃ r, r ∈ rows df ∧ cell_at r col = v.
Proof.
  intros H. apply options_spec in H as (_ & Hperm & Hsorted).
  split; [rewrite Hperm; apply NoDup_unique|]. split; [done|].
  intros v. rewrite Hperm, elem_of_unique. unfold dropna.
  rewrite list_elem_of_filter, list_elem_of_fmap. split.
  - intros (Hnn & r & -> & Hr). eauto.
  - intros (Hnn & r & Hr & <-). eauto.
Qed.

Lemma options_distinct_sorted_witness :
  options "Service" example_table = Ok [Str "EC2"; Str "S3"] ∧
  NoDup [Str "EC2"; Str "S3"] ∧
  StronglySorted (λ a b, cell_leb a b = true) [Str "EC2"; Str "S3"] ∧
  ∀ v, v ∈ [Str "EC2"; Str "S3"]
       ↔ notnull v = true ∧ ∃ r, r ∈ rows example_table ∧ cell_at r "Service" = v.
Proof.
  assert (options "Service" example_table = Ok [Str "EC2"; Str "S3"]) as H
    by (vm_compute; reflexivity).
  split; [exact H | exact (options_distinct_sorted _ _ _ H)].
Defined.

(** X13. A column that holds texts and nulls only always has its options:
    line 133 does not raise on it. *)
Theorem options_of_text_column (col : string) (df : DataFrame) :
  col ∈ columns df →
  Forall (λ r, is_number (cell_at r col) = false) (rows df) →
  ∃ opts, options col df = Ok opts.
Proof.
  intros Hc Htext. unfold options, getitem. rewrite decide_True by done.
  cbn [mbind pyresult_bind]. unfold sorted.
  assert (forallb is_text (unique (dropna (map (λ r, cell_at r col) (rows df))))
          = true) as ->; [|by eexists].
  apply forallb_forall. intros c Hin. apply list_elem_of_In in Hin.
  rewrite elem_of_unique in Hin. unfold dropna in Hin.
  apply list_elem_of_filter in Hin as [Hnn Hin].
  apply list_elem_of_fmap in Hin as (r & -> & Hr).
  rewrite Forall_forall in Htext. specialize (Htext r Hr).
  by destruct (cell_at r col).
Qed.

Lemma options_of_text_column_witness :
  "Region" ∈ columns example_table ∧
  Forall (λ r, is_number (cell_at r "Region") = false) (rows example_table) ∧
  ∃ opts, options "Region" example_table = Ok opts.
Proof.
  assert ("Region" ∈ columns example_table) as H1
    by (refine (bool_decide_unpack _ _); vm_compute; exact I).
  assert (Forall (λ r, is_number (cell_at r "Region") = false)
            (rows example_table)) as H2
    by (refine (bool_decide_unpack _ _); vm_compute; exact I).
  split; [exact H1|]. split; [exact H2|].
  exact (options_of_text_column "Region" example_table H1 H2).
Defined.

(** ** Filtered data (lines 137-143) *)

Lemma select_by (df : DataFrame) (c : string) (f : cell → bool) :
  select df (map f (map (λ r, cell_at r c) (rows df)))
  = mkDF (columns df) (filter (λ r, f (cell_at r c) = true) (rows df)).
Proof.
  unfold select. f_equal. induction (rows df) as [|r l IH]; [done|].
  cbn [map zip zip_with]. rewrite !filter_cons. cbn [snd].
  destruct (decide (f (cell_at r c) = true)) as [E|E].
  - cbn [map fst]. f_equal. apply IH.
  - apply IH.
Qed.

Lemma filter_all {A} (P : A → Prop) `{∀ x, Decision (P x)} (l : list A) :
  (∀ x, P x) → filter P l = l.
Proof.
  intros HP. induction l as [|x l IH]; [done|].
  by rewrite filter_cons, decide_True, IH.
Qed.

Lemma service_stage (selected_service : cell) (df : DataFrame) :
  "Service" ∈ columns df →
  (if negb (cell_eqb selected_service (Str "All")) then
     s ← getitem df "Service";
     Ok (select df (map (λ c, cell_eqb c selected_service) s))
   else Ok df)
  = Ok (mkDF (columns df) (filter (service_matches selected_service) (rows df))).
Proof.
  intros Hc.
  destruct (decide (cell_eqb selected_service (Str "All") = true)) as [E|E].
  - replace (negb (cell_eqb selected_service (Str "All"))) with false
      by (by rewrite E).
    rewrite filter_all by (intros r; by left). by destruct df.
  - apply not_true_is_false in E.
    replace (negb (cell_eqb selected_service (Str "All"))) with true
      by (by rewrite E).
    unfold getitem. rewrite decide_True by done. cbn [mbind pyresult_bind].
    rewrite select_by. do 2 f_equal. apply list_filter_iff. intros r.
    unfold service_matches. split; [by right|intros [?|?]; [congruence|done]].
Qed.

Lemma values_stage (col : string) (selected : list cell) (df : DataFrame) :
  col ∈ columns df →
  match selected with
  | [] => Ok df
  | _ => s ← getitem df col; Ok (select df (map (cell_isin selected) s))
  end
  = Ok (mkDF (columns df) (filter (values_match col selected) (rows df))).
Proof.
  intros Hc. destruct selected as [|v selected].
  - rewrite filter_all by (intros r; by left). by destruct df.
  - unfold getitem. rewrite decide_True by done. cbn [mbind pyresult_bind].
    rewrite select_by. do 2 f_equal. apply list_filter_iff. intros r.
    unfold values_match. split; [by right|by intros [?|?]].
Qed.

(** X14. The three selections applied one after the other keep, in their
    original order, exactly the rows that match all three at once; a
    selection left open (the service "All", an empty multiselect) matches
    every row. *)
Theorem filter_data_is_one_filter (selected_service : cell)
    (selected_region selected_department : list cell) (df : DataFrame) :
  "Service" ∈ columns df → "Region" ∈ columns df → "Department" ∈ columns df →
  filter_data selected_service selected_region selected_department df
  = Ok (mkDF (columns df)
          (filter (λ r, service_matches selected_service r ∧
                        values_match "Region" selected_region r ∧
                        values_match "Department" selected_department r)
                  (rows df))).
Proof.
  intros Hs Hr Hd. unfold filter_data.
  rewrite service_stage by done. cbn [mbind pyresult_bind].
  rewrite (values_stage "Region") by done. cbn [mbind pyresult_bind].
  rewrite (values_stage "Department") by done. cbn [columns rows].
  do 2 f_equal. rewrite !list_filter_filter. apply list_filter_iff.
  intros r. tauto.
Qed.

Lemma filter_data_is_one_filter_witness :
  "Service" ∈ columns example_table ∧ "Region" ∈ columns example_table ∧
  "Department" ∈ columns example_table ∧
  filter_data (Str "S3") [Str "us-west"] [] example_table
  = Ok (mkDF (columns example_table)
          (filter (λ r, service_matches (Str "S3") r ∧
                        values_match "Region" [Str "us-west"] r ∧
                        values_match "Department" [] r)
                  (rows example_table))).
Proof.
  assert ("Service" ∈ columns example_table) as H1
    by (refine (bool_decide_unpack _ _); vm_compute; exact I).
  assert ("Region" ∈ columns example_table) as H2
    by (refine (bool_decide_unpack _ _); vm_compute; exact I).
  assert ("Department" ∈ columns example_table) as H3
    by (refine (bool_decide_unpack _ _); vm_compute; exact I).
  split; [exact H1|]. split; [exact H2|]. split; [exact H3|].
  exact (filter_data_is_one_filter (Str "S3") [Str "us-west"] [] example_table
           H1 H2 H3).
Defined.

Lemma cell_eqb_refl (v : cell) : notnull v = true → cell_eqb v v = true.
Proof.
  destruct v as [|s|q]; cbn; [done| |].
  - intros _. by apply bool_decide_eq_true.
  - intros _. apply Qeq_bool_iff. reflexivity.
Qed.

(** X15. Every service the selectbox offers has rows: selecting it, with
    the two multiselects left empty, never gives an empty table. *)
Theorem offered_service_has_rows (df : DataFrame) (opts : list cell) (v : cell) :
  options "Service" df = Ok opts → v ∈ opts →
  ∃ d, filter_data v [] [] df = Ok d ∧ rows d ≠ [].
Proof.
  intros Hopts Hv. apply options_spec in Hopts as (Hcol & Hperm & _).
  rewrite Hperm, elem_of_unique in Hv. unfold dropna in Hv.
  apply list_elem_of_filter in Hv as [Hnn Hv].
  apply list_elem_of_fmap in Hv as (r & -> & Hr).
  unfold filter_data. rewrite service_stage by done. cbn [mbind pyresult_bind].
  eexists. split; [reflexivity|]. cbn [rows].
  assert (r ∈ filter (service_matches (cell_at r "Service")) (rows df)) as Hin.
  { apply list_elem_of_filter. split; [|done]. right. by apply cell_eqb_refl. }
  intros E. rewrite E in Hin. by apply elem_of_nil in Hin.
Qed.

Lemma offered_service_has_rows_witness :
  options "Service" example_table = Ok [Str "EC2"; Str "S3"] ∧
  Str "S3" ∈ [Str "EC2"; Str "S3"] ∧
  ∃ d, filter_data (Str "S3") [] [] example_table = Ok d ∧ rows d ≠ [].
Proof.
  assert (options "Service" example_table = Ok [Str "EC2"; Str "S3"]) as H1
    by (vm_compute; reflexivity).
  assert (Str "S3" ∈ [Str "EC2"; Str "S3"]) as H2
    by (refine (bool_decide_unpack _ _); vm_compute; exact I).
  split; [exact H1|]. split; [exact H2|].
  exact (offered_service_has_rows example_table _ _ H1 H2).
Defined.

(** ** After a full remediation (lines 161-170) *)

Lemma updated_df_eq (df edited_df : DataFrame) :
  "Tagged" ∈ columns df → tag_fields ⊆ columns edited_df →
  ∃ extra,
    updated_df df edited_df
    = Ok (mkDF (columns df ++ extra) (merged_rows df edited_df)).
Proof.
  intros Hflag Htags. unfold updated_df. rewrite recompute_flags_ok by done.
  cbn [mbind pyresult_bind]. rewrite where_eq_ok by done.
  cbn [mbind pyresult_bind]. unfold concat. cbn [columns rows].
  rewrite setitem_rows. by eexists.
Qed.

Lemma series_sum_numeric (s : list cell) :
  forallb no_text s = true →
  series_sum true s = Ok (Np (nansum (map float_of s))).
Proof.
  intros H. unfold series_sum. rewrite numeric_eq, H. cbn [mbind pyresult_bind].
  by destruct (map float_of s).
Qed.

Lemma value_counts_absent (s : list cell) (v : cell) :
  v ∉ s → value_counts s !! v = None.
Proof.
  induction s as [|c s IH]; [done|]. intros Hv.
  apply not_elem_of_cons in Hv as [Hne Hv].
  cbn [value_counts foldr]. fold (value_counts s). unfold count_cell.
  destruct (notnull c); [|by apply IH].
  rewrite lookup_insert_ne by done. by apply IH.
Qed.

Lemma merged_flags (df edited_df : DataFrame) :
  Forall (λ r, cell_at r "Tagged" = Str "Yes" ∨ cell_at r "Tagged" = Str "No")
         (merged_rows df edited_df).
Proof.
  apply Forall_app. split.
  - apply Forall_forall. intros r Hr.
    apply list_elem_of_filter in Hr as [? _]. by left.
  - apply Forall_fmap, Forall_forall. intros r _. apply reflag_flag.
Qed.

Lemma merged_all_yes (df edited_df : DataFrame) :
  Forall (λ r, ∀ f, f ∈ tag_fields → notnull (cell_at r f) = true)
         (rows edited_df) →
  Forall (λ r, cell_at r "Tagged" = Str "Yes") (merged_rows df edited_df).
Proof.
  intros Hfull. apply Forall_app. split.
  - apply Forall_forall. intros r Hr.
    by apply list_elem_of_filter in Hr as [? _].
  - apply Forall_fmap. eapply Forall_impl; [exact Hfull|]. intros r Hr.
    unfold compose, reflag. rewrite cell_at_insert.
    by apply flag_cell_yes, tag_cells_all.
Qed.

Lemma merged_costs (df edited_df : DataFrame) :
  Forall (λ r, no_text (cell_at r "MonthlyCostUSD") = true) (rows df) →
  Forall (λ r, no_text (cell_at r "MonthlyCostUSD") = true) (rows edited_df) →
  forallb (λ r, no_text (cell_at r "MonthlyCostUSD")) (merged_rows df edited_df)
  = true.
Proof.
  intros H1 H2. apply forallb_forall. intros r Hr.
  apply list_elem_of_In, elem_of_app in Hr as [Hr|Hr].
  - apply list_elem_of_filter in Hr as [_ Hr].
    rewrite Forall_forall in H1. by apply H1.
  - apply list_elem_of_fmap in Hr as (r0 & -> & Hr).
    unfold reflag. rewrite cell_at_insert_ne by done.
    rewrite Forall_forall in H2. by apply H2.
Qed.

Lemma filter_none {A} (P Q : A → Prop) `{∀ x, Decision (P x)} (l : list A) :
  Forall Q l → (∀ x, Q x → ¬ P x) → filter P l = [].
Proof.
  intros HQ Hno. induction HQ as [|x l Hx _ IH]; [done|].
  rewrite filter_cons, decide_False by by apply Hno. done.
Qed.

(** X16. When every row the editor returns has its four tags, the cost
    summary after remediation has no "No" entry, and the percentage of
    untagged cost is 0 (nan when the total cost itself is zero). *)
Theorem full_remediation_clears_untagged_cost (df edited_df : DataFrame) :
  "Tagged" ∈ columns df → "MonthlyCostUSD" ∈ columns df →
  tag_fields ⊆ columns edited_df →
  Forall (λ r, no_text (cell_at r "MonthlyCostUSD") = true) (rows df) →
  Forall (λ r, no_text (cell_at r "MonthlyCostUSD") = true) (rows edited_df) →
  Forall (λ r, ∀ f, f ∈ tag_fields → notnull (cell_at r f) = true)
         (rows edited_df) →
  ∃ by_tag total,
    updated_cost_by_tag df edited_df = Ok by_tag ∧
    by_tag !! Str "No" = None ∧
    (u ← updated_df df edited_df; total_cost true u) = Ok (Np total) ∧
    updated_percent_untagged_cost df edited_df
    = Ok (if Qeq_bool total 0 then nan else Fin (Qmult (Qdiv 0 total) 100)) ∧
    Qeq (Qmult (Qdiv 0 total) 100) 0.
Proof.
  intros Hflag Hcost Htags Hn1 Hn2 Hfull.
  destruct (updated_df_eq df edited_df Hflag Htags) as (extra & Hu).
  set (u := mkDF (columns df ++ extra) (merged_rows df edited_df)) in Hu.
  assert ("Tagged" ∈ columns u) as Hflag' by (apply elem_of_app; by left).
  assert ("MonthlyCostUSD" ∈ columns u) as Hcost' by (apply elem_of_app; by left).
  pose proof (merged_costs df edited_df Hn1 Hn2) as Hnum.
  assert (cost_by_tag u
          = Ok (foldl (row_add "Tagged" "MonthlyCostUSD") ∅
                  (merged_rows df edited_df))) as Hby.
  { unfold cost_by_tag. rewrite groupby_sum_eq, !decide_True by done.
    cbn [rows u]. by rewrite Hnum. }
  assert (foldl (row_add "Tagged" "MonthlyCostUSD") ∅ (merged_rows df edited_df)
          !! Str "No" = None) as Hno.
  { rewrite group_fold_lookup by done.
    rewrite (filter_none _ (λ r, cell_at r "Tagged" = Str "Yes")).
    - done.
    - by apply merged_all_yes.
    - intros r -> [=]. }
  set (total := nansum (map float_of (map (λ r, cell_at r "MonthlyCostUSD")
                                        (merged_rows df edited_df)))).
  assert (total_cost true u = Ok (Np total)) as Htot.
  { unfold total_cost, getitem. rewrite decide_True by done.
    cbn [mbind pyresult_bind rows u]. apply series_sum_numeric.
    clear -Hnum. induction (merged_rows df edited_df) as [|r l IH]; [done|].
    cbn in *. apply andb_true_iff in Hnum as [-> ?]. by apply IH. }
  eexists _, total. split; [|split; [|split; [|split]]].
  - unfold updated_cost_by_tag. rewrite Hu. cbn [mbind pyresult_bind]. exact Hby.
  - exact Hno.
  - rewrite Hu. cbn [mbind pyresult_bind]. exact Htot.
  - unfold updated_percent_untagged_cost. rewrite Hu. cbn [mbind pyresult_bind].
    unfold percent_cost. rewrite Hby. cbn [mbind pyresult_bind]. rewrite Htot.
    cbn [mbind pyresult_bind]. unfold get_or_0. rewrite Hno.
    unfold truediv. cbn [scalar_val].
    destruct (Qeq_bool total 0); reflexivity.
  - unfold Qdiv. ring.
Qed.

Lemma full_remediation_clears_untagged_cost_witness :
  "Tagged" ∈ columns example_table ∧ "MonthlyCostUSD" ∈ columns example_table ∧
  tag_fields ⊆ columns (mkDF schema [R2_tagged]) ∧
  Forall (λ r, no_text (cell_at r "MonthlyCostUSD") = true) (rows example_table) ∧
  Forall (λ r, no_text (cell_at r "MonthlyCostUSD") = true)
         (rows (mkDF schema [R2_tagged])) ∧
  Forall (λ r, ∀ f, f ∈ tag_fields → notnull (cell_at r f) = true)
         (rows (mkDF schema [R2_tagged])) ∧
  ∃ by_tag total,
    updated_cost_by_tag example_table (mkDF schema [R2_tagged]) = Ok by_tag ∧
    by_tag !! Str "No" = None ∧
    (u ← updated_df example_table (mkDF schema [R2_tagged]); total_cost true u)
    = Ok (Np total) ∧
    updated_percent_untagged_cost example_table (mkDF schema [R2_tagged])
    = Ok (if Qeq_bool total 0 then nan else Fin (Qmult (Qdiv 0 total) 100)) ∧
    Qeq (Qmult (Qdiv 0 total) 100) 0.
Proof.
  assert ("Tagged" ∈ columns example_table) as H1
    by (refine (bool_decide_unpack _ _); vm_compute; exact I).
  assert ("MonthlyCostUSD" ∈ columns example_table) as H2
    by (refine (bool_decide_unpack _ _); vm_compute; exact I).
  assert (tag_fields ⊆ columns (mkDF schema [R2_tagged])) as H3
    by (refine (bool_decide_unpack _ _); vm_compute; exact I).
  assert (Forall (λ r, no_text (cell_at r "MonthlyCostUSD") = true)
            (rows example_table)) as H4
    by (refine (bool_decide_unpack _ _); vm_compute; exact I).
  assert (Forall (λ r, no_text (cell_at r "MonthlyCostUSD") = true)
            (rows (mkDF schema [R2_tagged]))) as H5
    by (refine (bool_decide_unpack _ _); vm_compute; exact I).
  assert (Forall (λ r, ∀ f, f ∈ tag_fields → notnull (cell_at r f) = true)
            (rows (mkDF schema [R2_tagged]))) as H6.
  { apply Forall_singleton. apply tag_cells_all.
    refine (bool_decide_unpack _ _); vm_compute; exact I. }
  split; [exact H1|]. split; [exact H2|]. split; [exact H3|].
  split; [exact H4|]. split; [exact H5|]. split; [exact H6|].
  exact (full_remediation_clears_untagged_cost example_table
           (mkDF schema [R2_tagged]) H1 H2 H3 H4 H5 H6).
Defined.

(** X17. On the merged table of line 162 every flag is "Yes" or "No": the
    table has the tagged rows of the original plus the edited rows, the
    per-flag counts have no other key, and they add up to the number of
    rows. *)
Theorem merged_flags_all_counted (df edited_df : DataFrame) :
  "Tagged" ∈ columns df → tag_fields ⊆ columns edited_df →
  ∃ u counts,
    updated_df df edited_df = Ok u ∧
    tagged_counts u = Ok counts ∧
    len u = length (filter (λ r, cell_at r "Tagged" = Str "Yes") (rows df))
            + len edited_df ∧
    counts_total counts = len u ∧
    ∀ v, v ≠ Str "Yes" → v ≠ Str "No" → counts !! v = None.
Proof.
  intros Hflag Htags.
  destruct (updated_df_eq df edited_df Hflag Htags) as (extra & Hu).
  set (u := mkDF (columns df ++ extra) (merged_rows df edited_df)) in Hu.
  assert ("Tagged" ∈ columns u) as Hflag' by (apply elem_of_app; by left).
  pose proof (merged_flags df edited_df) as Hyn.
  exists u. eexists. split; [exact Hu|].
  split; [by unfold tagged_counts, getitem; rewrite decide_True|].
  split; [|split].
  - unfold len. cbn [rows u]. unfold merged_rows.
    by rewrite length_app, length_map.
  - rewrite value_counts_total. unfold len. cbn [rows u]. clear -Hyn.
    induction Hyn as [|r l Hr _ IH]; [done|]. cbn [map].
    rewrite filter_cons, decide_True by (by destruct Hr as [-> | ->]).
    cbn. by rewrite IH.
  - intros v Hy Hn. apply value_counts_absent. cbn [rows u].
    intros Hin. apply list_elem_of_fmap in Hin as (r & -> & Hr).
    rewrite Forall_forall in Hyn. by destruct (Hyn r Hr).
Qed.

Lemma merged_flags_all_counted_witness :
  "Tagged" ∈ columns blank_flag_table ∧
  tag_fields ⊆ columns (mkDF schema [R2_tagged]) ∧
  ∃ u counts,
    updated_df blank_flag_table (mkDF schema [R2_tagged]) = Ok u ∧
    tagged_counts u = Ok counts ∧
    len u = length (filter (λ r, cell_at r "Tagged" = Str "Yes")
                      (rows blank_flag_table))
            + len (mkDF schema [R2_tagged]) ∧
    counts_total counts = len u ∧
    ∀ v, v ≠ Str "Yes" → v ≠ Str "No" → counts !! v = None.
Proof.
  assert ("Tagged" ∈ columns blank_flag_table) as H1
    by (refine (bool_decide_unpack _ _); vm_compute; exact I).
  assert (tag_fields ⊆ columns (mkDF schema [R2_tagged])) as H2
    by (refine (bool_decide_unpack _ _); vm_compute; exact I).
  split; [exact H1|]. split; [exact H2|].
  exact (merged_flags_all_counted blank_flag_table (mkDF schema [R2_tagged]) H1 H2).
Defined.

(** ** Missing columns *)

Lemma getitems_missing (df : DataFrame) (cs : list string) :
  ¬ cs ⊆ columns df →
  ∃ c, c ∈ cs ∧ (c ∉ columns df) ∧ getitems df cs = Raise (KeyError c).
Proof.
  intros Hsub. unfold getitems.
  destruct (filter (λ c, c ∉ columns df) cs) as [|c l] eqn:E.
  - destruct Hsub. intros c Hc.
    destruct (decide (c ∈ columns df)) as [|Hn]; [done|].
    exfalso. by eapply (filter_nil_not_elem_of _ _ c E).
  - assert (c ∈ filter (λ c, c ∉ columns df) cs) as Hin by (rewrite E; by left).
    apply list_elem_of_filter in Hin as [Hn Hc]. by exists c.
Qed.

(** X19. When one of the four tag columns is missing, the score of line 93,
    the enrichment, the missing-tag count of line 99 and the flag recompute
    of line 161 all raise KeyError for a tag field the table does not
    have. *)
Theorem missing_tag_column_raises (df : DataFrame) :
  ¬ tag_fields ⊆ columns df →
  ∃ f, f ∈ tag_fields ∧ (f ∉ columns df) ∧
       TagCompletenessScore df = Raise (KeyError f) ∧
       enrich df = Raise (KeyError f) ∧
       missing_by_tag df = Raise (KeyError f) ∧
       recompute_flags df = Raise (KeyError f).
Proof.
  intros H. destruct (getitems_missing df tag_fields H) as (f & Hf & Hn & E).
  exists f. unfold enrich, TagCompletenessScore, missing_by_tag, recompute_flags.
  rewrite E. done.
Qed.

Lemma missing_tag_column_raises_witness :
  ¬ tag_fields ⊆ columns lowercase_table ∧
  ∃ f, f ∈ tag_fields ∧ (f ∉ columns lowercase_table) ∧
       TagCompletenessScore lowercase_table = Raise (KeyError f) ∧
       enrich lowercase_table = Raise (KeyError f) ∧
       missing_by_tag lowercase_table = Raise (KeyError f) ∧
       recompute_flags lowercase_table = Raise (KeyError f).
Proof.
  assert (¬ tag_fields ⊆ columns lowercase_table) as H
    by (refine (bool_decide_unpack _ _); vm_compute; exact I).
  split; [exact H | exact (missing_tag_column_raises lowercase_table H)].
Defined.

(** X20. Column names are matched as they are, letter case included: on a
    table without a column named exactly Tagged, the counts, both
    percentages, the cost by tag, the untagged department costs, the list of
    untagged resources and the remediation all raise KeyError for Tagged,
    and so does the run of the metrics. *)
Theorem missing_tagged_column_raises (df : DataFrame) :
  "Tagged" ∉ columns df →
  tagged_counts df = Raise (KeyError "Tagged") ∧
  percent_untagged df = Raise (KeyError "Tagged") ∧
  cost_by_tag df = Raise (KeyError "Tagged") ∧
  percent_untagged_cost df = Raise (KeyError "Tagged") ∧
  untagged_dept_cost df = Raise (KeyError "Tagged") ∧
  untagged_resources df = Raise (KeyError "Tagged") ∧
  (∀ editor, remediation editor df = Raise (KeyError "Tagged")) ∧
  metrics df = Raise (KeyError "Tagged").
Proof.
  intros H.
  assert (getitem df "Tagged" = Raise (KeyError "Tagged")) as Hg
    by (unfold getitem; by rewrite decide_False).
  assert (tagged_counts df = Raise (KeyError "Tagged")) as Hc
    by (unfold tagged_counts; by rewrite Hg).
  assert (cost_by_tag df = Raise (KeyError "Tagged")) as Hb
    by (unfold cost_by_tag, groupby_sum; by rewrite Hg).
  assert (where_eq df "Tagged" "No" = Raise (KeyError "Tagged")) as Hw
    by (unfold where_eq; by rewrite Hg).
  split; [done|]. split; [by unfold percent_untagged; rewrite Hc|].
  split; [done|].
  split; [by unfold percent_untagged_cost, percent_cost; rewrite Hb|].
  split; [by unfold untagged_dept_cost; rewrite Hw|].
  split; [by unfold untagged_resources; rewrite Hw|].
  split; [intros editor; by unfold remediation; rewrite Hw|].
  unfold metrics. by rewrite Hc.
Qed.

Lemma missing_tagged_column_raises_witness :
  ("Tagged" ∉ columns lowercase_table) ∧
  tagged_counts lowercase_table = Raise (KeyError "Tagged") ∧
  percent_untagged lowercase_table = Raise (KeyError "Tagged") ∧
  cost_by_tag lowercase_table = Raise (KeyError "Tagged") ∧
  percent_untagged_cost lowercase_table = Raise (KeyError "Tagged") ∧
  untagged_dept_cost lowercase_table = Raise (KeyError "Tagged") ∧
  untagged_resources lowercase_table = Raise (KeyError "Tagged") ∧
  (∀ editor, remediation editor lowercase_table = Raise (KeyError "Tagged")) ∧
  metrics lowercase_table = Raise (KeyError "Tagged").
Proof.
  assert ("Tagged" ∉ columns lowercase_table) as H
    by (refine (bool_decide_unpack _ _); vm_compute; exact I).
  split; [exact H | exact (missing_tagged_column_raises lowercase_table H)].
Defined.

(** ** Cost by environment and tag (line 87) *)

Lemma groupby2_sum_eq (df : DataFrame) (k1 k2 v : string) :
  k1 ∈ columns df → k2 ∈ columns df → v ∈ columns df →
  Forall (λ r, no_text (cell_at r v) = true) (rows df) →
  groupby2_sum df k1 k2 v = Ok (by_keys (foldl (row_add2 k1 k2 v) ∅ (rows df))).
Proof.
  intros H1 H2 Hv Hnum. unfold groupby2_sum, getitem.
  rewrite !decide_True by done. cbn [mbind pyresult_bind].
  rewrite numeric_eq.
  assert (forallb no_text (map (λ r, cell_at r v) (rows df)) = true) as ->.
  { apply forallb_forall. intros c Hc. apply list_elem_of_In in Hc.
    apply list_elem_of_fmap in Hc as (r & -> & Hr).
    rewrite Forall_forall in Hnum. by apply Hnum. }
  cbn [mbind pyresult_bind]. do 2 f_equal. generalize (∅ : gmap (cell * cell) Q).
  clear. induction (rows df) as [|r l IH]; [done|]. intros m. cbn. apply IH.
Qed.

Lemma group2_fold_lookup (k1 k2 v : string) (key : cell * cell) (l : list Row)
      (m : gmap (cell * cell) Q) :
  notnull key.1 = true → notnull key.2 = true →
  foldl (row_add2 k1 k2 v) m l !! key
  = match filter (λ r, (cell_at r k1, cell_at r k2) = key) l with
    | [] => m !! key
    | g => Some (foldl add_skipna (default 0%Q (m !! key))
                   (map (λ r, float_of (cell_at r v)) g))
    end.
Proof.
  intros Hk1 Hk2. revert m. induction l as [|r l IH]; intros m; [done|].
  cbn [foldl]. rewrite IH, filter_cons. unfold row_add2, group_add2. cbn [fst snd].
  destruct (decide ((cell_at r k1, cell_at r k2) = key)) as [<-|Hne].
  - cbn [fst snd] in Hk1, Hk2. rewrite Hk1, Hk2. cbn [andb].
    rewrite lookup_insert_eq. cbn [default map foldl].
    by destruct (filter _ l).
  - destruct (notnull (cell_at r k1) && notnull (cell_at r k2)); [|done].
    by rewrite lookup_insert_ne.
Qed.

Lemma group2_fold_null (k1 k2 v : string) (key : cell * cell) (l : list Row)
      (m : gmap (cell * cell) Q) :
  notnull key.1 && notnull key.2 = false →
  foldl (row_add2 k1 k2 v) m l !! key = m !! key.
Proof.
  intros Hkey. revert m. induction l as [|r l IH]; intros m; [done|].
  cbn [foldl]. rewrite IH. unfold row_add2, group_add2. cbn [fst snd].
  destruct (notnull (cell_at r k1) && notnull (cell_at r k2)) eqn:E; [|done].
  rewrite lookup_insert_ne; [done|]. intros <-. cbn [fst snd] in Hkey. congruence.
Qed.

(** X22. The cost summary by environment and tag has an entry for a pair of
    non-null values exactly when some row holds that pair, the sum of the
    costs of these rows; a row with a null environment or a null flag
    enters no entry. *)
Theorem env_tag_summary_lookup (df : DataFrame) :
  "Environment" ∈ columns df → "Tagged" ∈ columns df →
  "MonthlyCostUSD" ∈ columns df →
  Forall (λ r, no_text (cell_at r "MonthlyCostUSD") = true) (rows df) →
  ∃ sums,
    env_tag_summary df = Ok (by_keys sums) ∧
    (∀ env flag, notnull env && notnull flag = false → sums !! (env, flag) = None) ∧
    ∀ env flag, notnull env = true → notnull flag = true →
      sums !! (env, flag)
      = match filter (λ r, (cell_at r "Environment", cell_at r "Tagged")
                           = (env, flag)) (rows df) with
        | [] => None
        | g => Some (nansum (map (λ r, float_of (cell_at r "MonthlyCostUSD")) g))
        end.
Proof.
  intros He Ht Hc Hnum. unfold env_tag_summary.
  rewrite groupby2_sum_eq by done. eexists. split; [reflexivity|]. split.
  - intros env flag Hnull. by rewrite group2_fold_null.
  - intros env flag Henv Hflag. by rewrite group2_fold_lookup.
Qed.

Lemma env_tag_summary_lookup_witness :
  "Environment" ∈ columns example_table ∧ "Tagged" ∈ columns example_table ∧
  "MonthlyCostUSD" ∈ columns example_table ∧
  Forall (λ r, no_text (cell_at r "MonthlyCostUSD") = true) (rows example_table) ∧
  ∃ sums,
    env_tag_summary example_table = Ok (by_keys sums) ∧
    (∀ env flag, notnull env && notnull flag = false → sums !! (env, flag) = None) ∧
    ∀ env flag, notnull env = true → notnull flag = true →
      sums !! (env, flag)
      = match filter (λ r, (cell_at r "Environment", cell_at r "Tagged")
                           = (env, flag)) (rows example_table) with
        | [] => None
        | g => Some (nansum (map (λ r, float_of (cell_at r "MonthlyCostUSD")) g))
        end.
Proof.
  assert ("Environment" ∈ columns example_table) as H1
    by (refine (bool_decide_unpack _ _); vm_compute; exact I).
  assert ("Tagged" ∈ columns example_table) as H2
    by (refine (bool_decide_unpack _ _); vm_compute; exact I).
  assert ("MonthlyCostUSD" ∈ columns example_table) as H3
    by (refine (bool_decide_unpack _ _); vm_compute; exact I).
  assert (Forall (λ r, no_text (cell_at r "MonthlyCostUSD") = true)
            (rows example_table)) as H4
    by (refine (bool_decide_unpack _ _); vm_compute; exact I).
  split; [exact H1|]. split; [exact H2|]. split; [exact H3|]. split; [exact H4|].
  exact (env_tag_summary_lookup example_table H1 H2 H3 H4).
Defined.

(** ** Flag and score (lines 93, 161) *)

(** X23. On the same table the recomputed flag and the completeness score
    agree: line 161 writes "Yes" on exactly the rows whose score of line 93
    is 4. *)
Theorem flag_yes_iff_score_four (df : DataFrame) :
  tag_fields ⊆ columns df →
  ∃ scores flagged,
    TagCompletenessScore df = Ok scores ∧
    recompute_flags df = Ok flagged ∧
    Forall2 (λ (r' : Row) (s : cell),
               cell_at r' "Tagged" = Str "Yes" ↔ s = Num (Q_of_nat 4))
            (rows flagged) scores.
Proof.
  intros Htags.
  exists (map (λ r : Row, score_cell (map (cell_at r) tag_fields)) (rows df)).
  eexists. split; [|split].
  - unfold TagCompletenessScore. rewrite getitems_ok by done. cbn.
    by rewrite map_map.
  - by apply recompute_flags_ok.
  - rewrite setitem_rows. apply Forall2_fmap, Forall2_same_length_lookup.
    split; [done|]. intros i r r' Hr Hr'. assert (r' = r) as -> by congruence.
    rewrite cell_at_insert, flag_cell_yes, <- count_notnull_full, length_map.
    cbn [tag_fields length]. unfold score_cell. split; [by intros ->|].
    intros [= E]. apply Nat2Z.inj in E. exact E.
Qed.

Lemma flag_yes_iff_score_four_witness :
  tag_fields ⊆ columns example_table ∧
  ∃ scores flagged,
    TagCompletenessScore example_table = Ok scores ∧
    recompute_flags example_table = Ok flagged ∧
    Forall2 (λ (r' : Row) (s : cell),
               cell_at r' "Tagged" = Str "Yes" ↔ s = Num (Q_of_nat 4))
            (rows flagged) scores.
Proof.
  assert (tag_fields ⊆ columns example_table) as H
    by (refine (bool_decide_unpack _ _); vm_compute; exact I).
  split; [exact H | exact (flag_yes_iff_score_four example_table H)].
Defined.

(** ** Rows with anomalies (lines 57-170) *)















Lemma filter_data_all (df : DataFrame) : filter_data (Str "All") [] [] df = Ok df.
Proof. done. Qed.







(** What the merge is written to do with a row whose flag is neither
    "Yes" nor "No": the row flagged "Maybe" is in neither subset, and the
    merged table has the other two rows. *)
Remark odd_flag_row_not_merged :
  (res ← remediation id odd_flag_table;
   Ok (option_map (λ r, map (λ row, cell_at row "ResourceID") (rows (rem_updated r)))
                  res))
  = Ok (Some [Str "R1"; Str "R2"]).
Proof. vm_compute. reflexivity. Qed.

(** ** Ingestion of tidy wrapped files (lines 10-34) *)

(** A wrapped file whose lines end with a bare carriage return: the
    tokenizer closes each line when the next one begins, or at the end of
    the file. *)
Lemma step_wrapped_cr_line (skip : bool) (l : text) (t : tokenizer) :
  QUOTE ∉ l → LF ∉ l →
  field t = [] →
  (state t = START_RECORD ∧ line t = []) ∨ state t = EAT_CRNL →
  foldl (step skip) t (wrap l ++ [CR])
  = mkTok EAT_CRNL [] [l]
          (match state t with EAT_CRNL => lines t ++ [line t] | _ => lines t end)
          (seen t ++ wrap l ++ [CR]).
Proof.
  intros Hq Hlf Hf Hs. destruct t as [s f ln ls sn]. cbn in Hf, Hs. subst f.
  cbn [state lines line seen]. unfold wrap.
  replace ((QUOTE :: l ++ [QUOTE]) ++ [CR]) with (QUOTE :: l ++ [QUOTE; CR])
    by (cbn; by rewrite <- app_assoc).
  cbn [foldl].
  assert (step skip (mkTok s [] ln ls sn) QUOTE
          = mkTok IN_QUOTED_FIELD [] []
                  (match s with EAT_CRNL => ls ++ [ln] | _ => ls end)
                  (sn ++ [QUOTE])) as ->.
  { destruct Hs as [[-> ->]| ->]; reflexivity. }
  rewrite foldl_app, step_in_quoted by done.
  generalize (match s with EAT_CRNL => ls ++ [ln] | _ => ls end). intros ls'.
  transitivity (mkTok EAT_CRNL [] [l] ls'
                      ((((sn ++ [QUOTE]) ++ l) ++ [QUOTE]) ++ [CR]));
    [reflexivity|].
  f_equal. cbn. by rewrite <- !app_assoc.
Qed.

Lemma tokenize_wrapped_cr (skip : bool) (content : list text) :
  Forall (λ l, QUOTE ∉ l) content → Forall (λ l, LF ∉ l) content →
  tokenize skip (file_with [CR] (map wrap content)) = Ok (map (λ l, [l]) content).
Proof.
  intros Hq Hlf. unfold tokenize.
  assert (∀ t, field t = [] →
               (state t = START_RECORD ∧ line t = []) ∨ state t = EAT_CRNL →
               at_eof (foldl (step skip) t (file_with [CR] (map wrap content)))
               = Ok (match state t with
                     | EAT_CRNL => lines t ++ [line t]
                     | _ => lines t
                     end ++ map (λ l, [l]) content)) as H.
  { induction Hq as [|l content Hl _ IH]; intros t Hf Hs.
    - rewrite app_nil_r. destruct t as [s f ln ls sn]. cbn in Hf, Hs. subst f.
      by destruct Hs as [[-> ->]| ->].
    - apply Forall_cons in Hlf as [Hll Hlf].
      unfold file_with. cbn [map List.concat]. rewrite foldl_app.
      rewrite step_wrapped_cr_line by done.
      fold (file_with [CR] (map wrap content)).
      rewrite IH by (done || by right). cbn. by rewrite <- app_assoc. }
  rewrite H by (done || by left). done.
Qed.

Lemma one_column_frame (l : text) (content : list text) :
  ∃ df, build_frame (map (λ l0, [l0]) (l :: content)) = Ok df ∧
        length (columns df) = 1.
Proof.
  cbn [map]. unfold build_frame.
  set (width := match map (λ l0, [l0]) content with
                | [] => length [l]
                | r :: _ => length [l] `max` length r
                end).
  assert (width = 1) as Hw by (unfold width; by destruct content).
  assert (forallb (λ r : list text, length r <=? width)
            (map (λ l0, [l0]) content) = true) as ->.
  { rewrite Hw. clear. induction content as [|x content IH]; [done|]. apply IH. }
  eexists. split; [reflexivity|]. cbn [columns]. apply length_header_names.
Qed.

Lemma ingest_wrapped_cr (content : list text) :
  Forall unquoted content →
  ingest (file_with [CR] (map wrap content)) = read_csv false (join [LF] content).
Proof.
  intros H. destruct (unquoted_parts content H) as (Hq & Hlf & Hcr).
  destruct content as [|l content]; [done|].
  destruct (one_column_frame l content) as (df & Hdf & Hlen).
  assert (read_csv true (file_with [CR] (map wrap (l :: content))) = Ok df) as Hread.
  { unfold read_csv. by rewrite tokenize_wrapped_cr. }
  unfold ingest. rewrite Hread. cbn [mbind pyresult_bind].
  rewrite bool_decide_eq_true_2 by done.
  rewrite repaired_lines; [done|by right; right|done..].
Qed.

(** X18. When no line has whitespace at either end, a space right after a
    comma, a quote or a line break inside, the repair does what it is
    meant to do: the file of wrapped lines, whichever way its lines end,
    loads as the unwrapped lines parsed as plain comma-separated text, and
    this is also what the program loads from the file of the same lines
    without the quotes, with Unix or DOS line ends. *)
Theorem tidy_wrapped_file_ingestion (eol eol' : text) (content : list text) :
  line_end eol → eol' = [LF] ∨ eol' = [CR; LF] →
  Forall unquoted content → Forall tidy content →
  ingest (file_with eol (map wrap content)) = read_csv false (join [LF] content) ∧
  ingest (file_with eol' content) = read_csv false (join [LF] content) ∧
  load (file_with eol (map wrap content)) = load (file_with eol' content).
Proof.
  intros Heol Heol' Hu Ht.
  assert (ingest (file_with eol (map wrap content))
          = read_csv false (join [LF] content)) as Hw.
  { destruct Heol as [->|[->| ->]].
    - apply ingest_wrapped; [by left|done].
    - apply ingest_wrapped; [by right|done].
    - by apply ingest_wrapped_cr. }
  pose proof (ingest_plain eol' content Heol' Hu Ht) as Hp.
  split; [exact Hw|]. split; [exact Hp|]. unfold load. by rewrite Hw, Hp.
Qed.

Lemma tidy_wrapped_file_ingestion_witness :
  line_end [CR; LF] ∧ ([LF] = [LF] ∨ [LF] = [CR; LF]) ∧
  Forall unquoted example_content ∧ Forall tidy example_content ∧
  ingest (file_with [CR; LF] (map wrap example_content))
  = read_csv false (join [LF] example_content) ∧
  ingest (file_with [LF] example_content)
  = read_csv false (join [LF] example_content) ∧
  load (file_with [CR; LF] (map wrap example_content))
  = load (file_with [LF] example_content).
Proof.
  assert (line_end [CR; LF]) as H0 by (right; left; reflexivity).
  assert ([LF] = [LF] ∨ [LF] = [CR; LF]) as H0' by (left; reflexivity).
  assert (Forall unquoted example_content) as H1
    by (refine (bool_decide_unpack _ _); vm_compute; exact I).
  assert (Forall tidy example_content) as H2
    by (refine (bool_decide_unpack _ _); vm_compute; exact I).
  split; [exact H0|]. split; [exact H0'|]. split; [exact H1|]. split; [exact H2|].
  exact (tidy_wrapped_file_ingestion [CR; LF] [LF] example_content H0 H0' H1 H2).
Defined.
